(** * Verification of the retrieval core of my-awesome-ra

    Shallow embedding of [apps/api/src/services/index.py] ([IndexService]:
    chunking, grounding estimation, FAISS-backed vector store, search and
    delete) and of the two routers that consume it
    ([routers/evidence.py], [routers/documents.py]).

    Modelling conventions:
    - Python [str] is [string] (one ASCII character per code point);
      Python [int] is [Z].
    - Python dicts holding records are association lists [pydict] with
      Python's insertion-order semantics (updating an existing key keeps
      its position).
    - Floats (vector components, scores, thresholds) are modelled as exact
      integers [Z]; L2 normalisation is abstracted (see [normalize]).
    - An exception raised by a method is [Raise st], where [st] is the
      state of the service at the moment of the raise: mutations already
      performed are kept, as in Python.
    - A [while] loop is run with explicit fuel; [None] means the fuel ran
      out before the loop exited. *)

From Stdlib Require Import ZArith Lia Ascii String Sorting.Sorted.
From stdpp Require Import base list strings pretty gmap.

Open Scope Z_scope.

(* ------------------------------------------------------------------ *)
(** ** Python string primitives *)

Module Py.

(** [len(s)] *)
Definition len (s : string) : Z := Z.of_nat (String.length s).

(** Index normalisation of slices and of the [start]/[end] arguments of
    [str.rfind]: negative indices count from the end, then clamp to
    [[0, len]]. *)
Definition norm_index (i n : Z) : Z :=
  if i <? 0 then Z.max 0 (i + n) else Z.min i n.

(** [s[a:b]] *)
Definition slice (s : string) (a b : Z) : string :=
  let n := len s in
  let a' := norm_index a n in
  let b' := norm_index b n in
  if a' <? b' then String.substring (Z.to_nat a') (Z.to_nat (b' - a')) s
  else EmptyString.

(** Does [sub] occur in [s] at position [i]? *)
Definition occurs_at (s sub : string) (i : Z) : bool :=
  String.eqb (String.substring (Z.to_nat i) (String.length sub) s) sub.

(** [s.rfind(sub, a, b)]: the highest [i] with [a' <= i] and
    [i + len(sub) <= b'] at which [sub] occurs, else [-1]. *)
Fixpoint rfind_go (s sub : string) (a : Z) (k : nat) : Z :=
  if occurs_at s sub (a + Z.of_nat k) then a + Z.of_nat k
  else match k with
       | O => -1
       | S k' => rfind_go s sub a k'
       end.

Definition rfind (s sub : string) (a b : Z) : Z :=
  let n := len s in
  let a' := norm_index a n in
  let b' := norm_index b n in
  let room := b' - a' - len sub in
  if room <? 0 then -1 else rfind_go s sub a' (Z.to_nat room).

(** [str.isspace] on one ASCII character: [\t \n \v \f \r], the
    separators [\x1c]..[\x1f], and the space. *)
Definition is_space (c : ascii) : bool :=
  let n := nat_of_ascii c in
  ((9 <=? n)%nat && (n <=? 13)%nat) || ((28 <=? n)%nat && (n <=? 32)%nat).

Fixpoint lstrip_chars (l : list ascii) : list ascii :=
  match l with
  | [] => []
  | c :: l' => if is_space c then lstrip_chars l' else l
  end.

(** [s.strip()] *)
Definition strip (s : string) : string :=
  string_of_list_ascii
    (rev (lstrip_chars (rev (lstrip_chars (list_ascii_of_string s))))).

(** Truthiness of a string. *)
Definition truthy (s : string) : bool :=
  match s with EmptyString => false | _ => true end.

End Py.

(* ------------------------------------------------------------------ *)
(** ** Chunker: [IndexService._chunk_text] *)

Module Chunker.

(** [self.chunk_size] and [self.chunk_overlap], read from the
    environment ([CHUNK_SIZE], [CHUNK_OVERLAP]) with defaults 500/100. *)
Record config := { chunk_size : Z; chunk_overlap : Z }.

Definition default_config : config := {| chunk_size := 500; chunk_overlap := 100 |}.

(** A chunk dictionary [{"text", "start_idx", "end_idx"}]. *)
Record chunk := { c_text : string; start_idx : Z; end_idx : Z }.

(** The boundary markers, in the order they are tried. *)
Definition seps : list string :=
  [". "; String "." (String (ascii_of_nat 10) EmptyString);
   String (ascii_of_nat 10) (String (ascii_of_nat 10) EmptyString)].

(** [for sep in seps: last_sep = text.rfind(sep, start, end);
    if last_sep > start: end = last_sep + len(sep); break] *)
Fixpoint snap (text : string) (start end_ : Z) (ss : list string) : Z :=
  match ss with
  | [] => end_
  | sep :: ss' =>
      let last_sep := Py.rfind text sep start end_ in
      if start <? last_sep then last_sep + Py.len sep
      else snap text start end_ ss'
  end.

(** The window end of one iteration of the loop body. *)
Definition window_end (cfg : config) (text : string) (start : Z) : Z :=
  let end_ := Z.min (start + chunk_size cfg) (Py.len text) in
  if end_ <? Py.len text then snap text start end_ seps else end_.

(** The next value of [start]:
    [end - self.chunk_overlap if end < len(text) else len(text)]. *)
Definition next_start (cfg : config) (text : string) (end_ : Z) : Z :=
  if end_ <? Py.len text then end_ - chunk_overlap cfg else Py.len text.

(** The [while start < len(text)] loop; [chunks] is the accumulator. *)
Fixpoint chunk_loop (fuel : nat) (cfg : config) (text : string) (start : Z)
    (chunks : list chunk) : option (list chunk) :=
  if start <? Py.len text then
    match fuel with
    | O => None
    | S fuel' =>
        let end_ := window_end cfg text start in
        let ct := Py.strip (Py.slice text start end_) in
        let chunks' :=
          if Py.truthy ct
          then chunks ++ [{| c_text := ct; start_idx := start; end_idx := end_ |}]
          else chunks in
        chunk_loop fuel' cfg text (next_start cfg text end_) chunks'
    end
  else Some chunks.

Definition _chunk_text (fuel : nat) (cfg : config) (text : string)
    : option (list chunk) :=
  chunk_loop fuel cfg text 0 [].

(** The scan windows of the same loop, blank ones included: each entry is
    [(start, end, text[start:end].strip())]. *)
Fixpoint window_loop (fuel : nat) (cfg : config) (text : string) (start : Z)
    : option (list chunk) :=
  if start <? Py.len text then
    match fuel with
    | O => None
    | S fuel' =>
        let end_ := window_end cfg text start in
        let ct := Py.strip (Py.slice text start end_) in
        match window_loop fuel' cfg text (next_start cfg text end_) with
        | Some ws => Some ({| c_text := ct; start_idx := start; end_idx := end_ |} :: ws)
        | None => None
        end
    end
  else Some [].

Definition emitted (ws : list chunk) : list chunk :=
  filter (fun w => Py.truthy (c_text w) = true) ws.

End Chunker.

(* ------------------------------------------------------------------ *)
(** ** Python values and dicts *)

Module Dict.

(** The scalar values stored in metadata records.  [VFloat] holds a float
    abstracted to an exact integer. *)
Inductive pyval :=
| VStr (s : string)
| VInt (z : Z)
| VFloat (z : Z)
| VBool (b : bool)
| VNone.

(** A dict with string keys, in insertion order. *)
Definition pydict := list (string * pyval).

(** [d.get(k)]; [None] is a missing key. *)
Fixpoint get (d : pydict) (k : string) : option pyval :=
  match d with
  | [] => None
  | (k', v) :: d' => if String.eqb k k' then Some v else get d' k
  end.

(** [d.get(k, default)] *)
Definition get_default (d : pydict) (k : string) (dflt : pyval) : pyval :=
  match get d k with Some v => v | None => dflt end.

(** [d[k] = v]: an existing key keeps its position. *)
Fixpoint set (d : pydict) (k : string) (v : pyval) : pydict :=
  match d with
  | [] => [(k, v)]
  | (k', v') :: d' =>
      if String.eqb k k' then (k, v) :: d' else (k', v') :: set d' k v
  end.

(** [{**d1, **d2}] *)
Definition merge (d1 d2 : pydict) : pydict :=
  fold_left (fun acc kv => set acc (fst kv) (snd kv)) d2 d1.

(** [v == s] for a string [s] ([!=] is its negation). *)
Definition is_str (v : pyval) (s : string) : bool :=
  match v with VStr s' => String.eqb s' s | _ => false end.

End Dict.

(* ------------------------------------------------------------------ *)
(** ** Grounding estimator: [IndexService._find_grounding_for_chunk] *)

Module Grounding.
Import Dict.

(** The SOLAR grounding dict, element id to info.  An entry carries
    [Some p] when [info] is a dict with an integer ["page"], and [None]
    when it is skipped by [isinstance(info, dict) and "page" in info]. *)
Definition grounding := list (string * option Z).

Fixpoint max_list (p : Z) (ps : list Z) : Z :=
  match ps with [] => p | q :: ps' => max_list (Z.max p q) ps' end.

(** Returns the dict [{"page": p}].  The set of pages is kept as a list:
    only its emptiness and its maximum are used.  The float computation
    [int((start + end) / 2 / total_chars * total_pages)] is taken exactly,
    truncating towards zero like [int]. *)
Definition _find_grounding_for_chunk (chunk : Chunker.chunk)
    (grounding : option grounding) (total_chars : Z) : pydict :=
  match grounding with
  | None | Some [] => [("page", VInt 1)]
  | Some g =>
      match omap snd g with
      | [] => [("page", VInt 1)]
      | p :: ps =>
          let total_pages := max_list p ps in
          if total_pages =? 1 then [("page", VInt 1)]
          else if 0 <? total_chars then
            let estimated_page :=
              Z.quot ((Chunker.start_idx chunk + Chunker.end_idx chunk) * total_pages)
                     (2 * total_chars) + 1 in
            [("page", VInt (Z.min estimated_page total_pages))]
          else [("page", VInt 1)]
      end
  end.

End Grounding.

(* ------------------------------------------------------------------ *)
(** ** FAISS [IndexFlatIP] *)

Module Faiss.

Definition vec := list Z.

(** An exact inner-product index of dimension [ix_d]. *)
Record index := { ix_d : Z; ix_vecs : list vec }.

Definition IndexFlatIP (d : Z) : index := {| ix_d := d; ix_vecs := [] |}.

Definition ntotal (ix : index) : nat := length (ix_vecs ix).

Definition has_dim (d : Z) (v : vec) : bool := Z.of_nat (length v) =? d.

(** [index.add(xs)]: rows of the wrong width are rejected before anything
    is added. *)
Definition add (ix : index) (xs : list vec) : option index :=
  if forallb (has_dim (ix_d ix)) xs
  then Some {| ix_d := ix_d ix; ix_vecs := ix_vecs ix ++ xs |}
  else None.

(** [index.reconstruct(i)] *)
Definition reconstruct (ix : index) (i : nat) : option vec := ix_vecs ix !! i.

Fixpoint inner (q v : vec) : Z :=
  match q, v with
  | x :: q', y :: v' => x * y + inner q' v'
  | _, _ => 0
  end.

(** The distance used for missing neighbours ([-FLT_MAX]). *)
Definition pad_score : Z := - 340282346638528859811704183484516925440.

(** FAISS's [IndexFlatIP::search] with one query runs
    [exhaustive_inner_product_seq] with a [HeapResultHandler<CMin>]
    (the [Top1] handler for [k = 1] behaves the same way), then
    [heap_reorder].  Rows are [(score, label)] pairs, the label being the
    position of the vector in the index. *)

(** [CMin::cmp2]: row [a] ranks below row [b] when its score is lower,
    or when the scores are equal and its label is lower. *)
Definition ranks_below (a b : Z * Z) : bool :=
  (fst a <? fst b) || ((fst a =? fst b) && (snd a <? snd b)).

(** The result heap, listed from its top [heap_dis[0]] (the row that
    ranks lowest) upwards; [heap_replace_top] drops the top and sifts the
    new row to its place in this order. *)
Fixpoint heap_insert (r : Z * Z) (h : list (Z * Z)) : list (Z * Z) :=
  match h with
  | [] => [r]
  | x :: h' => if ranks_below r x then r :: x :: h' else x :: heap_insert r h'
  end.

(** [add_result] over the database rows in index order: a row replaces
    the top only when [C::cmp(heap_dis[0], dis)], i.e. when its score is
    strictly above the score at the top. *)
Fixpoint heap_scan (h : list (Z * Z)) (rows : list (Z * Z)) : list (Z * Z) :=
  match rows with
  | [] => h
  | r :: rows' =>
      match h with
      | top :: h' =>
          if fst top <? fst r then heap_scan (heap_insert r h') rows'
          else heap_scan h rows'
      | [] => heap_scan h rows'
      end
  end.

(** [heap_reorder]: the rows best first, the slots never filled (label
    [-1]) moved to the end with score [-FLT_MAX]. *)
Definition heap_reorder (k : nat) (h : list (Z * Z)) : list (Z * Z) :=
  let top := List.filter (fun r => negb (snd r =? -1)) (rev h) in
  top ++ replicate (k - length top) (pad_score, -1).

(** [index.search(q, k)] for one query: a heap of [k] slots initialised
    by [heap_heapify] to [(-FLT_MAX, -1)], filled by the scan, then
    reordered.  [k <= 0] and a query of the wrong width fail. *)
Definition search (ix : index) (q : vec) (k : Z) : option (list (Z * Z)) :=
  if (k <=? 0) || negb (has_dim (ix_d ix) q) then None
  else
    let scored := imap (fun i v => (inner q v, Z.of_nat i)) (ix_vecs ix) in
    Some (heap_reorder (Z.to_nat k)
            (heap_scan (replicate (Z.to_nat k) (pad_score, -1)) scored)).

End Faiss.

(* ------------------------------------------------------------------ *)
(** ** [IndexService] *)

Module Service.
Import Dict.

(** [self.dimension] *)
Definition dimension : Z := 4096.

(** The service state.  [_index] is never [None] after [__init__]
    ([_load_or_create_index] always sets it), so it is a plain field. *)
Record service := {
  chunk_cfg : Chunker.config;
  _index : Faiss.index;
  _metadata : list pydict
}.

Definition with_store (st : service) (ix : Faiss.index) (md : list pydict) : service :=
  {| chunk_cfg := chunk_cfg st; _index := ix; _metadata := md |}.

(** A fresh service with no saved index: [faiss.IndexFlatIP(self.dimension)]
    and no metadata. *)
Definition fresh (cfg : Chunker.config) : service :=
  {| chunk_cfg := cfg; _index := Faiss.IndexFlatIP dimension; _metadata := [] |}.

(** A method returns with a value, or raises; both carry the state. *)
Inductive outcome (A : Type) :=
| Ret (st : service) (a : A)
| Raise (st : service).
Arguments Ret {A} st a.
Arguments Raise {A} st.

(** [embedding / np.linalg.norm(embedding)].  Scaling is not modelled:
    vectors are exact integer vectors and stay as given. *)
Definition normalize (v : Faiss.vec) : Faiss.vec := v.

(** [f"{document_id}_{i}"] *)
Definition chunk_id_of (document_id : string) (i : nat) : string :=
  document_id +:+ "_" +:+ pretty i.

(** The record appended for chunk [i]. *)
Definition make_record (document_id : string) (i : nat) (chunk : Chunker.chunk)
    (chunk_grounding : pydict) (metadata : option pydict) : pydict :=
  merge
    [("document_id", VStr document_id);
     ("chunk_id", VStr (chunk_id_of document_id i));
     ("text", VStr (Chunker.c_text chunk));
     ("start_idx", VInt (Chunker.start_idx chunk));
     ("end_idx", VInt (Chunker.end_idx chunk));
     ("page", get_default chunk_grounding "page" (VInt 1));
     ("bbox", get_default chunk_grounding "box" VNone)]
    (default [] metadata).

(** The [for i, (chunk, embedding) in enumerate(zip(chunks, embeddings))]
    loop of [index_document]; a failing [self._index.add] raises with the
    records of the earlier iterations kept. *)
Fixpoint index_loop (st : service) (document_id : string)
    (metadata : option pydict) (grounding : option Grounding.grounding)
    (total_chars : Z) (i : nat) (pairs : list (Chunker.chunk * Faiss.vec))
    : outcome unit :=
  match pairs with
  | [] => Ret st tt
  | (chunk, embedding) :: pairs' =>
      let chunk_grounding :=
        Grounding._find_grounding_for_chunk chunk grounding total_chars in
      let normalized := normalize embedding in
      match Faiss.add (_index st) [normalized] with
      | None => Raise st
      | Some ix' =>
          let st' := with_store st ix'
            (_metadata st ++
             [make_record document_id i chunk chunk_grounding metadata]) in
          index_loop st' document_id metadata grounding total_chars (S i) pairs'
      end
  end.

(** [index_document].  [embeddings] is the answer of the embedding
    service ([None]: it raised).  [None] as a result: the chunking loop did
    not exit within [fuel] iterations, so the method has not returned. *)
Definition index_document (fuel : nat) (st : service) (document_id content : string)
    (metadata : option pydict) (grounding : option Grounding.grounding)
    (embeddings : option (list Faiss.vec)) : option (outcome Z) :=
  match Chunker._chunk_text fuel (chunk_cfg st) content with
  | None => None
  | Some chunks =>
      let total_chars := Py.len content in
      match embeddings with
      | None => Some (Raise st)
      | Some es =>
          match index_loop st document_id metadata grounding total_chars 0
                  (zip chunks es) with
          | Ret st' _ => Some (Ret st' (Z.of_nat (length chunks)))
          | Raise st' => Some (Raise st')
          end
      end
  end.

(** [m["document_id"] != document_id]; [None] is a [KeyError]. *)
Definition keeps (document_id : string) (m : pydict) : option bool :=
  match get m "document_id" with
  | None => None
  | Some v => Some (negb (is_str v document_id))
  end.

(** [[i for i, m in enumerate(self._metadata) if m["document_id"] != document_id]] *)
Fixpoint indices_to_keep (document_id : string) (i : nat) (ms : list pydict)
    : option (list nat) :=
  match ms with
  | [] => Some []
  | m :: ms' =>
      match keeps document_id m, indices_to_keep document_id (S i) ms' with
      | Some true, Some is => Some (i :: is)
      | Some false, Some is => Some is
      | _, _ => None
      end
  end.

(** [self._index.reconstruct(i) for i in indices_to_keep] *)
Fixpoint reconstruct_all (ix : Faiss.index) (is : list nat) : option (list Faiss.vec) :=
  match is with
  | [] => Some []
  | i :: is' =>
      match Faiss.reconstruct ix i, reconstruct_all ix is' with
      | Some v, Some vs => Some (v :: vs)
      | _, _ => None
      end
  end.

(** [delete_document] *)
Definition delete_document (st : service) (document_id : string) : outcome Z :=
  match indices_to_keep document_id 0 (_metadata st) with
  | None => Raise st
  | Some keep =>
      let deleted_count := Z.of_nat (length (_metadata st)) - Z.of_nat (length keep) in
      if deleted_count =? 0 then Ret st 0
      else match keep with
      | _ :: _ =>
          match reconstruct_all (_index st) keep with
          | None => Raise st
          | Some kept_vectors =>
              let kept_metadata := omap (fun i => _metadata st !! i) keep in
              let ix := Faiss.IndexFlatIP dimension in
              match Faiss.add ix kept_vectors with
              | None => Raise (with_store st ix (_metadata st))
              | Some ix' => Ret (with_store st ix' kept_metadata) deleted_count
              end
          end
      | [] => Ret (with_store st (Faiss.IndexFlatIP dimension) []) deleted_count
      end
  end.

(** The [for score, idx in zip(scores[0], indices[0])] loop of [search];
    [None] is an [IndexError] on [self._metadata[idx]]. *)
Fixpoint collect (metadata : list pydict) (threshold : Z) (rows : list (Z * Z))
    : option (list pydict) :=
  match rows with
  | [] => Some []
  | (score, idx) :: rows' =>
      if (idx <? 0) || (score <? threshold) then collect metadata threshold rows'
      else match metadata !! Z.to_nat idx with
           | None => None
           | Some meta =>
               match collect metadata threshold rows' with
               | Some rs => Some (set meta "score" (VFloat score) :: rs)
               | None => None
               end
           end
  end.

(** [search] *)
Definition search (st : service) (embedding : Faiss.vec) (top_k threshold : Z)
    : outcome (list pydict) :=
  if (Faiss.ntotal (_index st) =? 0)%nat then Ret st []
  else
    let normalized := normalize embedding in
    match Faiss.search (_index st) normalized top_k with
    | None => Raise st
    | Some rows =>
        match collect (_metadata st) threshold rows with
        | None => Raise st
        | Some results => Ret st results
        end
    end.

(** The operations that mutate the store. *)
Inductive op :=
| OpIndex (document_id content : string) (metadata : option pydict)
    (grounding : option Grounding.grounding) (embeddings : option (list Faiss.vec))
| OpDelete (document_id : string).

(** The state after one call, whether it returned or raised; [None] when
    the call has not returned. *)
Definition exec_op (fuel : nat) (st : service) (o : op) : option service :=
  match o with
  | OpIndex d c m g e =>
      match index_document fuel st d c m g e with
      | Some (Ret st' _) | Some (Raise st') => Some st'
      | None => None
      end
  | OpDelete d =>
      match delete_document st d with
      | Ret st' _ | Raise st' => Some st'
      end
  end.

(** The states after each call of a sequence; the sequence stops at a
    call that does not return. *)
Fixpoint run (fuel : nat) (st : service) (ops : list op) : list service :=
  match ops with
  | [] => []
  | o :: ops' =>
      match exec_op fuel st o with
      | Some st' => st' :: run fuel st' ops'
      | None => []
      end
  end.

End Service.

(* ------------------------------------------------------------------ *)
(** ** Routers *)

Module Routers.
Import Dict Service.

(** An HTTP answer: a response body, or an [HTTPException] status. *)
Inductive http (A : Type) :=
| Ok (a : A)
| HttpError (status_code : Z).
Arguments Ok {A} a.
Arguments HttpError {A} status_code.

(** [models/evidence.py: EvidenceResult]; field values are kept as the
    router passes them (pydantic's type coercion is not modelled). *)
Record evidence_result := {
  er_document_id : pyval;
  er_chunk_id : pyval;
  er_text : pyval;
  er_page : pyval;
  er_score : pyval;
  er_title : pyval;
  er_authors : pyval;
  er_year : pyval;
  er_source_pdf : pyval;
  er_metadata : pydict
}.

(** The keys left out of [metadata=...] in [search_evidence]. *)
Definition excluded_keys : list string :=
  ["document_id"; "chunk_id"; "text"; "score"; "start_idx"; "end_idx"].

(** [EvidenceResult(...)] built from one search result [r]; [None] is a
    [KeyError] on [r["document_id"]], [r["chunk_id"]], [r["text"]] or
    [r["score"]]. *)
Definition to_evidence_result (r : pydict) : option evidence_result :=
  match get r "document_id", get r "chunk_id", get r "text", get r "score" with
  | Some d, Some c, Some t, Some sc =>
      Some {| er_document_id := d;
              er_chunk_id := c;
              er_text := t;
              er_page := get_default r "page" VNone;
              er_score := sc;
              er_title := get_default r "title" VNone;
              er_authors := get_default r "authors" VNone;
              er_year := get_default r "year" VNone;
              er_source_pdf := get_default r "source_pdf" VNone;
              er_metadata :=
                List.filter (fun kv => negb (existsb (String.eqb (fst kv)) excluded_keys)) r |}
  | _, _, _, _ => None
  end.

Fixpoint to_evidence_results (rs : list pydict) : option (list evidence_result) :=
  match rs with
  | [] => Some []
  | r :: rs' =>
      match to_evidence_result r, to_evidence_results rs' with
      | Some er, Some ers => Some (er :: ers)
      | _, _ => None
      end
  end.

(** [routers/evidence.py: search_evidence]; [query_embedding] is the
    answer of [embed_query]; every exception becomes a 500. *)
Definition search_evidence (st : service) (query_embedding : Faiss.vec)
    (top_k threshold : Z) : http (list evidence_result) :=
  match search st query_embedding top_k threshold with
  | Raise _ => HttpError 500
  | Ret _ results =>
      match to_evidence_results results with
      | Some ers => Ok ers
      | None => HttpError 500
      end
  end.

Definition is_word_char (c : ascii) : bool :=
  let n := nat_of_ascii c in
  ((48 <=? n)%nat && (n <=? 57)%nat) || ((65 <=? n)%nat && (n <=? 90)%nat) ||
  ((97 <=? n)%nat && (n <=? 122)%nat) || (n =? 95)%nat.

Definition is_id_char (c : ascii) : bool :=
  is_word_char c || Ascii.eqb c "-" || Ascii.eqb c ".".

Definition is_hex_lower (c : ascii) : bool :=
  let n := nat_of_ascii c in
  ((48 <=? n)%nat && (n <=? 57)%nat) || ((97 <=? n)%nat && (n <=? 102)%nat).

(** [DOCUMENT_ID_PATTERN.match(s)] for [^[\w\-\.]+_[a-f0-9]{12}$]: a
    non-empty run of id characters, ["_"], twelve lower-case hex digits,
    then the end of the string or a final newline. *)
Definition matches_id_pattern (s : string) : bool :=
  let l := list_ascii_of_string s in
  let body := match last l with
              | Some c => if Ascii.eqb c (ascii_of_nat 10) then removelast l else l
              | None => l
              end in
  let n := length body in
  (14 <=? n)%nat &&
  forallb is_hex_lower (drop (n - 12) body) &&
  (match body !! (n - 13)%nat with Some c => Ascii.eqb c "_" | None => false end) &&
  forallb is_id_char (take (n - 13) body).

(** [validate_document_id]: [Some status] when it raises. *)
Definition validate_document_id (document_id : string) : option Z :=
  if (256 <? Py.len document_id) then Some 400
  else if negb (matches_id_pattern document_id) then Some 400
  else None.

(** [routers/documents.py: delete_document] (the status-map clean-up is
    not modelled). *)
Definition delete_document_route (st : service) (document_id : string)
    : http Z * service :=
  match validate_document_id document_id with
  | Some code => (HttpError code, st)
  | None =>
      match Service.delete_document st document_id with
      | Raise st' => (HttpError 500, st')
      | Ret st' chunks_deleted =>
          if chunks_deleted =? 0 then (HttpError 404, st')
          else (Ok chunks_deleted, st')
      end
  end.

End Routers.

(* ------------------------------------------------------------------ *)
(** ** Store predicates *)

Module Invariants.
Import Dict Service.

(** [self._index.ntotal == len(self._metadata)] *)
Definition aligned (st : service) : Prop :=
  Faiss.ntotal (_index st) = length (_metadata st).

Definition has_document_id (m : pydict) : Prop := get m "document_id" <> None.

(** The shape of every store the service creates: dimension
    [self.dimension], aligned collections, a ["document_id"] in every
    record. *)
Definition wf (st : service) : Prop :=
  Faiss.ix_d (_index st) = dimension /\
  Forall (fun v => Faiss.has_dim dimension v = true) (Faiss.ix_vecs (_index st)) /\
  aligned st /\
  Forall has_document_id (_metadata st).

(** [m["document_id"] == d] *)
Definition of_document (d : string) (m : pydict) : bool :=
  match get m "document_id" with Some v => is_str v d | None => false end.

(** The [chunk_id] values of the records of document [d], in order. *)
Definition chunk_ids (d : string) (ms : list pydict) : list pyval :=
  omap (fun m => if of_document d m then get m "chunk_id" else None) ms.

Definition chunk_ids_distinct (st : service) : Prop :=
  forall d, NoDup (chunk_ids d (_metadata st)).

(** A (vector, record) pair that [delete_document st d] keeps. *)
Definition keep_pair (d : string) (p : Faiss.vec * pydict) : bool :=
  match keeps d (snd p) with Some true => true | _ => false end.

Definition outcome_state {A} (o : outcome A) : service :=
  match o with Ret st _ => st | Raise st => st end.

(** The ["score"] of each search result. *)
Definition result_scores (rs : list pydict) : list Z :=
  omap (fun r => match get r "score" with Some (VFloat s) => Some s | _ => None end) rs.

(** Caller metadata that overrides neither ["document_id"] nor
    ["chunk_id"]. *)
Definition no_id_keys (metadata : option pydict) : Prop :=
  get (default [] metadata) "document_id" = None /\
  get (default [] metadata) "chunk_id" = None.

(** An operation that indexes only documents without records in the
    store, with metadata of the above kind. *)
Definition fresh_op (st : service) (o : op) : Prop :=
  match o with
  | OpIndex d _ m _ _ => no_id_keys m /\ Forall (fun r => of_document d r = false) (_metadata st)
  | OpDelete _ => True
  end.

(** The records appended by one [index_document] loop, as a function of
    the iteration number. *)
Definition new_records (d : string) (md : option pydict)
    (g : option Grounding.grounding) (tc : Z) (i : nat)
    (pairs : list (Chunker.chunk * Faiss.vec)) : list pydict :=
  imap (fun j p => make_record d (i + j) (fst p)
           (Grounding._find_grounding_for_chunk (fst p) g tc) md) pairs.

(** [a] may come before [b] in a ranked answer. *)
Definition ranked_before (a b : Z * Z) : Prop := fst b <= fst a.

(** The rows that the loop of [search] turns into results. *)
Definition kept_row (threshold : Z) (row : Z * Z) : bool :=
  negb ((snd row <? 0) || (fst row <? threshold)).

Definition result_of (metadata : list pydict) (row : Z * Z) (r : pydict) : Prop :=
  exists m, metadata !! Z.to_nat (snd row) = Some m /\ r = set m "score" (VFloat (fst row)).

End Invariants.

(* ------------------------------------------------------------------ *)
(** ** [IndexService.get_chunks] and [IndexService.list_documents] *)

Module Listing.
Import Dict Service.

(** The number a value stands for under Python's [==]: ints, floats and
    bools compare by value ([True == 1]). *)
Definition num_of (v : pyval) : option Z :=
  match v with
  | VInt z | VFloat z => Some z
  | VBool b => Some (if b then 1 else 0)
  | _ => None
  end.

(** [a == b] between two stored values, as dict keys are compared. *)
Definition py_eq (a b : pyval) : bool :=
  match num_of a, num_of b with
  | Some x, Some y => x =? y
  | None, None =>
      match a, b with
      | VStr s, VStr t => String.eqb s t
      | VNone, VNone => true
      | _, _ => false
      end
  | _, _ => false
  end.

(** The comprehension of [get_chunks]; [None] is a [KeyError]. *)
Fixpoint get_chunks_go (document_id : string) (ms : list pydict) : option (list pydict) :=
  match ms with
  | [] => Some []
  | m :: ms' =>
      match get m "document_id" with
      | None => None
      | Some v =>
          if is_str v document_id then
            match get m "chunk_id", get m "text", get m "start_idx", get m "end_idx",
                  get_chunks_go document_id ms' with
            | Some c, Some t, Some s, Some e, Some rest =>
                Some ([("chunk_id", c); ("text", t); ("page", get_default m "page" VNone);
                       ("start_idx", s); ("end_idx", e)] :: rest)
            | _, _, _, _, _ => None
            end
          else get_chunks_go document_id ms'
      end
  end.

(** [get_chunks] *)
Definition get_chunks (st : service) (document_id : string) : option (list pydict) :=
  get_chunks_go document_id (_metadata st).

(** The dict [documents] of [list_documents], keyed by document id in
    insertion order. *)
Fixpoint lookup_doc (k : pyval) (docs : list (pyval * pydict)) : option pydict :=
  match docs with
  | [] => None
  | (k', info) :: docs' => if py_eq k k' then Some info else lookup_doc k docs'
  end.

(** [documents[k] = info]: an existing key keeps its position. *)
Fixpoint update_doc (k : pyval) (info : pydict) (docs : list (pyval * pydict))
    : list (pyval * pydict) :=
  match docs with
  | [] => [(k, info)]
  | (k', i') :: docs' =>
      if py_eq k k' then (k', info) :: docs' else (k', i') :: update_doc k info docs'
  end.

Definition new_doc_info (doc_id : pyval) (meta : pydict) : pydict :=
  [("document_id", doc_id);
   ("title", get_default meta "title" VNone);
   ("authors", get_default meta "authors" VNone);
   ("chunk_count", VInt 0);
   ("indexed_at", get_default meta "indexed_at" VNone)].

(** One iteration of the loop of [list_documents]. *)
Definition list_step (docs : list (pyval * pydict)) (meta : pydict)
    : option (list (pyval * pydict)) :=
  match get meta "document_id" with
  | None => None
  | Some doc_id =>
      let docs1 :=
        match lookup_doc doc_id docs with
        | Some _ => docs
        | None => update_doc doc_id (new_doc_info doc_id meta) docs
        end in
      match lookup_doc doc_id docs1 with
      | Some info =>
          match get info "chunk_count" with
          | Some (VInt n) => Some (update_doc doc_id (set info "chunk_count" (VInt (n + 1))) docs1)
          | _ => None
          end
      | None => None
      end
  end.

Fixpoint list_go (docs : list (pyval * pydict)) (ms : list pydict)
    : option (list (pyval * pydict)) :=
  match ms with
  | [] => Some docs
  | m :: ms' =>
      match list_step docs m with
      | Some docs' => list_go docs' ms'
      | None => None
      end
  end.

(** [list_documents]: [list(documents.values())]. *)
Definition list_documents (st : service) : option (list pydict) :=
  match list_go [] (_metadata st) with
  | Some docs => Some (map snd docs)
  | None => None
  end.

(** The ["chunk_count"] of a listed document. *)
Definition chunk_count (info : pydict) : Z :=
  match get info "chunk_count" with Some (VInt n) => n | _ => 0 end.

End Listing.

(* ------------------------------------------------------------------ *)
(** ** Upload, processing status and background indexing
    ([routers/documents.py]) *)

Module Uploads.
Import Dict Service Routers.

Definition MAX_FILE_SIZE : Z := 50 * 1024 * 1024.

(** [str.lower] on one ASCII character. *)
Definition lower_char (c : ascii) : ascii :=
  let n := nat_of_ascii c in
  if (65 <=? n)%nat && (n <=? 90)%nat then ascii_of_nat (n + 32) else c.

(** [filename.lower().endswith(".pdf")] *)
Definition ends_with_pdf (filename : string) : bool :=
  let l := map lower_char (list_ascii_of_string filename) in
  String.eqb (string_of_list_ascii (drop (length l - 4) l)) ".pdf".

(** The characters before the last ["."], if there is one. *)
Fixpoint before_last_dot (l : list ascii) : option (list ascii) :=
  match l with
  | [] => None
  | c :: l' =>
      match before_last_dot l' with
      | Some p => Some (c :: p)
      | None => if Ascii.eqb c "." then Some [] else None
      end
  end.

(** [filename.rsplit(".", 1)[0]] *)
Definition stem (filename : string) : string :=
  let l := list_ascii_of_string filename in
  string_of_list_ascii (default l (before_last_dot l)).

(** [re.sub(r"[^\w\-\.]", "_", s)] *)
Definition sanitize (s : string) : string :=
  string_of_list_ascii
    (map (fun c => if is_id_char c then c else "_"%char) (list_ascii_of_string s)).

(** [f"{safe_name}_{file_hash}"], where [file_hash] is
    [hashlib.sha256(content).hexdigest()[:12]]. *)
Definition upload_document_id (filename file_hash : string) : string :=
  sanitize (stem filename) +:+ "_" +:+ file_hash.

(** [_document_status]: document id to its status dict. *)
Abbreviation status_map := (gmap string pydict).

Definition processing_entry (message : string) : pydict :=
  [("status", VStr "processing"); ("message", VStr message)].

Definition indexed_entry (chunk_count : Z) : pydict :=
  [("status", VStr "indexed"); ("message", VStr "Indexing complete");
   ("chunk_count", VInt chunk_count)].

(** The status set by [except Exception as e]; [message] is [str(e)]. *)
Definition error_entry (message : string) : pydict :=
  [("status", VStr "error"); ("message", VStr message)].

(** [DocumentUploadResponse] *)
Record upload_response := {
  ur_document_id : string;
  ur_status : string;
  ur_message : string
}.

(** The [try] block of [upload_and_index_document]: the new status map,
    and whether the background task was scheduled.  [HttpError c] is an
    exception raised inside the block. *)
Definition upload_body (status : status_map) (filename : string) (content_len : Z)
    (file_hash : string) : http upload_response * status_map * bool :=
  if MAX_FILE_SIZE <? content_len then (HttpError 413, status, false)
  else
    let document_id := upload_document_id filename file_hash in
    let queue :=
      (Ok {| ur_document_id := document_id; ur_status := "processing";
             ur_message := "Document queued for processing" |},
       <[document_id := processing_entry "Queued for processing"]> status, true) in
    match status !! document_id with
    | None => queue
    | Some current =>
        match get current "status" with
        | None => (HttpError 500, status, false)
        | Some v =>
            if is_str v "processing" then
              (Ok {| ur_document_id := document_id; ur_status := "processing";
                     ur_message := "Document is already being processed" |}, status, false)
            else if is_str v "indexed" then
              (Ok {| ur_document_id := document_id; ur_status := "indexed";
                     ur_message := "Document is already indexed" |}, status, false)
            else queue
        end
    end.

(** [POST /documents/upload]; [content_len] is [len(content)].  Every
    exception of the [try] block, the 413 included, becomes a 500. *)
Definition upload_and_index_document (status : status_map) (filename : string)
    (content_len : Z) (file_hash : string) : http upload_response * status_map * bool :=
  if negb (Py.truthy filename && ends_with_pdf filename) then (HttpError 400, status, false)
  else
    match upload_body status filename content_len file_hash with
    | (HttpError _, s, t) => (HttpError 500, s, t)
    | r => r
    end.

(** The answer of [solar_service.parse_document]. *)
Record parse_result := {
  p_pages : pyval;
  p_content : string;
  p_metadata : pydict
}.

(** The [metadata] argument passed to [index_service.index_document];
    [indexed_at] is the timestamp. *)
Definition upload_metadata (filename indexed_at : string) (parsed : parse_result) : pydict :=
  merge
    [("title", VStr (stem filename)); ("source_pdf", VStr filename);
     ("pages", p_pages parsed); ("indexed_at", VStr indexed_at)]
    (p_metadata parsed).

(** [_process_document_in_background], run to completion.  [parsed] is
    the parser's answer ([None]: it raised), [embeddings] the embedding
    service's, [err] the text of the exception caught.  [None]: the call
    does not return (the chunking loop does not exit within [fuel]). *)
Definition process_document_in_background (fuel : nat) (st : service)
    (status : status_map) (document_id filename : string)
    (parsed : option parse_result) (embeddings : option (list Faiss.vec))
    (indexed_at err : string) : option (service * status_map) :=
  let status1 := <[document_id := processing_entry "Parsing PDF..."]> status in
  match parsed with
  | None => Some (st, <[document_id := error_entry err]> status1)
  | Some p =>
      let status2 :=
        <[document_id := set (processing_entry "Parsing PDF...") "message"
                           (VStr "Indexing content...")]> status1 in
      match index_document fuel st document_id (p_content p)
              (Some (upload_metadata filename indexed_at p)) None embeddings with
      | None => None
      | Some (Raise st') => Some (st', <[document_id := error_entry err]> status2)
      | Some (Ret st' n) => Some (st', <[document_id := indexed_entry n]> status2)
      end
  end.

(** The [try] block of [upload_and_index_document_sync]. *)
Definition upload_sync_body (fuel : nat) (st : service) (status : status_map)
    (filename : string) (content_len : Z) (file_hash : string)
    (parsed : option parse_result) (embeddings : option (list Faiss.vec))
    (indexed_at : string) : option (http (string * Z) * service * status_map) :=
  if MAX_FILE_SIZE <? content_len then Some (HttpError 413, st, status)
  else
    let document_id := upload_document_id filename file_hash in
    match parsed with
    | None => Some (HttpError 500, st, status)
    | Some p =>
        match index_document fuel st document_id (p_content p)
                (Some (upload_metadata filename indexed_at p)) None embeddings with
        | None => None
        | Some (Raise st') => Some (HttpError 500, st', status)
        | Some (Ret st' n) =>
            Some (Ok (document_id, n), st', <[document_id := indexed_entry n]> status)
        end
    end.

(** [POST /documents/upload/sync] *)
Definition upload_and_index_document_sync (fuel : nat) (st : service)
    (status : status_map) (filename : string) (content_len : Z) (file_hash : string)
    (parsed : option parse_result) (embeddings : option (list Faiss.vec))
    (indexed_at : string) : option (http (string * Z) * service * status_map) :=
  if negb (Py.truthy filename && ends_with_pdf filename)
  then Some (HttpError 400, st, status)
  else
    match upload_sync_body fuel st status filename content_len file_hash parsed
            embeddings indexed_at with
    | Some (HttpError _, st', s) => Some (HttpError 500, st', s)
    | r => r
    end.

(** [DocumentStatusResponse] *)
Record status_response := {
  sr_document_id : string;
  sr_status : pyval;
  sr_message : option pyval;
  sr_chunk_count : option pyval
}.

(** [GET /documents/{document_id}/status]; a [KeyError] escapes as a 500. *)
Definition get_document_status (status : status_map) (document_id : string)
    : http status_response :=
  match validate_document_id document_id with
  | Some code => HttpError code
  | None =>
      match status !! document_id with
      | None => HttpError 404
      | Some info =>
          match get info "status" with
          | None => HttpError 500
          | Some s =>
              Ok {| sr_document_id := document_id; sr_status := s;
                    sr_message := get info "message";
                    sr_chunk_count := get info "chunk_count" |}
          end
      end
  end.

(** [DELETE /documents/{document_id}] with its clean-up of
    [_document_status] after a successful delete. *)
Definition delete_document_route_status (st : service) (status : status_map)
    (document_id : string) : http Z * service * status_map :=
  match delete_document_route st document_id with
  | (Ok n, st') => (Ok n, st', delete document_id status)
  | (HttpError c, st') => (HttpError c, st', status)
  end.

End Uploads.

(* ------------------------------------------------------------------ *)
(** ** [EmbeddingService.embed_documents] *)

Module Embedding.

Definition BATCH_SIZE : nat := 5.

(** [range(0, n, BATCH_SIZE)] *)
Definition batch_starts (n : nat) : list nat :=
  map (fun j => j * BATCH_SIZE)%nat (seq 0 ((n + BATCH_SIZE - 1) / BATCH_SIZE)).

(** [texts[i : i + BATCH_SIZE]] *)
Definition batch (texts : list string) (i : nat) : list string :=
  take BATCH_SIZE (drop i texts).

(** The batch loop.  [post batch] is the embeddings of one request
    ([client.post], [raise_for_status], [item["embedding"] for item in
    data["data"]]); [None]: it raised. *)
Fixpoint embed_batches (post : list string -> option (list Faiss.vec))
    (texts : list string) (starts : list nat) (all : list Faiss.vec)
    : option (list Faiss.vec) :=
  match starts with
  | [] => Some all
  | i :: starts' =>
      match post (batch texts i) with
      | None => None
      | Some es => embed_batches post texts starts' (all ++ es)
      end
  end.

(** [embed_documents] *)
Definition embed_documents (post : list string -> option (list Faiss.vec))
    (texts : list string) : option (list Faiss.vec) :=
  match texts with
  | [] => Some []
  | _ => embed_batches post texts (batch_starts (length texts)) []
  end.

End Embedding.

(* ------------------------------------------------------------------ *)
(** ** [EvidenceSearchRequest.query] validation ([models/evidence.py]) *)

Module Requests.

(** [validate_query] (strip, refuse an empty query), then the field's
    [min_length=3] and [max_length=500] on the stripped value. *)
Definition validate_query (q : string) : option string :=
  let v := Py.strip q in
  if negb (Py.truthy v) then None
  else if (Py.len v <? 3) || (500 <? Py.len v) then None
  else Some v.

End Requests.

(* ------------------------------------------------------------------ *)
(** ** Concrete inputs *)

Module Inputs.

Fixpoint rep (n : nat) (c : ascii) : string :=
  match n with O => EmptyString | S n' => String c (rep n' c) end.

(** 200 letters, a sentence end ["a. "] and 1000 more letters: the only
    sentence boundary of every window from position 103 on lies less than
    [chunk_overlap] characters after the window start. *)
Definition stuck_text : string := rep 200 "x" +:+ "a. " +:+ rep 1000 "x".

(** ["a"], 1000 spaces, ["b"]: the middle window is blank. *)
Definition blank_gap_text : string := "a" +:+ rep 1000 " " +:+ "b".

(** A unit embedding of width [self.dimension]. *)
Definition unit_vec : Faiss.vec := 1 :: replicate 4095 0.

(** Ingesting the one-chunk text ["hello"] whose embedding is [unit_vec]. *)
Definition ingest (d : string) : Service.op :=
  Service.OpIndex d "hello" None None (Some [unit_vec]).

Definition last_state (sts : list Service.service) : Service.service :=
  default (Service.fresh Chunker.default_config) (last sts).

Definition paper_id : string := "paper_0123456789ab".
Definition notes_id : string := "notes_0123456789ab".

(** The same document ingested twice, with no delete in between. *)
Definition reingest_ops : list Service.op := [ingest paper_id; ingest paper_id].

(** Two documents whose chunks have the same embedding. *)
Definition two_docs_ops : list Service.op := [ingest paper_id; ingest notes_id].

Definition store_two : Service.service :=
  last_state (Service.run 1 (Service.fresh Chunker.default_config) two_docs_ops).

(** 600 letters: two windows, [(0, 500)] and [(400, 600)]. *)
Definition two_chunk_text : string := rep 600 "x".

Definition draft_id : string := "draft_0123456789ab".

(** Caller metadata that sets ["chunk_id"]. *)
Definition chunk_id_override : option Dict.pydict := Some [("chunk_id", Dict.VStr "c")].

(** Ingesting the two-chunk text, one [unit_vec] per chunk. *)
Definition ingest_two (d : string) : Service.op :=
  Service.OpIndex d two_chunk_text None None (Some [unit_vec; unit_vec]).

(** A store holding two chunks of one document and one of another. *)
Definition store_three : Service.service :=
  last_state (Service.run 3 (Service.fresh Chunker.default_config)
                [ingest_two paper_id; ingest notes_id]).

End Inputs.

(* ------------------------------------------------------------------ *)
(** ** Auxiliary predicates *)

Module ListingInvariants.
Import Dict Service Listing.

(** Every entry of [documents] is keyed by its ["document_id"] and has an
    integer ["chunk_count"]. *)
Definition docs_inv (docs : list (pyval * pydict)) : Prop :=
  Forall (fun e => get (snd e) "document_id" = Some (fst e) /\
                   exists n, get (snd e) "chunk_count" = Some (VInt n)) docs.

(** The entries of [documents] whose key is the string [d]. *)
Definition entries_of (d : string) (docs : list (pyval * pydict)) : list (pyval * pydict) :=
  List.filter (fun e => is_str (fst e) d) docs.

Definition count_sum (docs : list (pyval * pydict)) : Z :=
  fold_right Z.add 0 (map (fun e => chunk_count (snd e)) docs).

(** [d] has no entry and count [n = 0], or one entry with count [n > 0]. *)
Definition doc_rel (d : string) (docs : list (pyval * pydict)) (n : Z) : Prop :=
  (n = 0 /\ entries_of d docs = []) \/
  (0 < n /\ exists k info, entries_of d docs = [(k, info)] /\ chunk_count info = n).

End ListingInvariants.

Module ExtraDefs.
Import Py.


(** A character list that does not start with whitespace. *)
Definition head_not_space (l : list ascii) : Prop :=
  match l with [] => True | c :: _ => is_space c = false end.

End ExtraDefs.

(** ** More concrete inputs *)

Module MoreInputs.
Import Dict Grounding Uploads.

(** A one-page PDF whose text is ["hello"]. *)
Definition hello_pdf : parse_result :=
  {| p_pages := VInt 1; p_content := "hello"; p_metadata := [] |}.

(** Two chunks, the first ending before the second starts. *)
Definition early_chunk : Chunker.chunk :=
  {| Chunker.c_text := "x"; Chunker.start_idx := 0; Chunker.end_idx := 100 |}.
Definition late_chunk : Chunker.chunk :=
  {| Chunker.c_text := "x"; Chunker.start_idx := 400; Chunker.end_idx := 900 |}.
Definition three_pages : grounding := [("e1", Some 1); ("e3", Some 3)].

(** Seven texts, enough for two embedding batches. *)
Definition seven_texts : list string := ["a"; "b"; "c"; "d"; "e"; "f"; "g"].

End MoreInputs.

(* ================================================================== *)
(** * Proofs *)

Module ChunkerFacts.
Import Chunker.

Lemma chunk_loop_unfold fuel cfg text start chunks :
  chunk_loop (S fuel) cfg text start chunks =
  if start <? Py.len text then
    let end_ := window_end cfg text start in
    let ct := Py.strip (Py.slice text start end_) in
    chunk_loop fuel cfg text (next_start cfg text end_)
      (if Py.truthy ct
       then chunks ++ [{| c_text := ct; start_idx := start; end_idx := end_ |}]
       else chunks)
  else Some chunks.
Proof. reflexivity. Qed.



(** Every loop exit of [chunk_loop] is an exit of [window_loop], and the
    accumulated chunks are the non-blank windows. *)
Lemma chunk_loop_windows fuel cfg text start acc cs :
  chunk_loop fuel cfg text start acc = Some cs ->
  exists ws, window_loop fuel cfg text start = Some ws /\ cs = acc ++ emitted ws.
Proof.
  revert start acc. induction fuel as [|fuel IH]; intros start acc H.
  - simpl in *. destruct (start <? Py.len text); [discriminate|].
    exists []. injection H as <-. rewrite app_nil_r. split; reflexivity.
  - rewrite chunk_loop_unfold in H. simpl.
    destruct (start <? Py.len text); cbv zeta in *.
    + apply IH in H as (ws & Hws & ->). rewrite Hws. eexists; split; [reflexivity|].
      unfold emitted. rewrite filter_cons.
      destruct (Py.truthy _) eqn:T; simpl.
      * rewrite <- app_assoc. reflexivity.
      * reflexivity.
    + exists []. injection H as <-. rewrite app_nil_r. split; reflexivity.
Qed.


Lemma stuck_len : Py.len Inputs.stuck_text = 1203.
Proof. vm_compute. reflexivity. Qed.

Lemma stuck_from_103 fuel acc :
  chunk_loop fuel default_config Inputs.stuck_text 103 acc = None.
Proof.
  revert acc. induction fuel as [|fuel IH]; intros acc.
  - vm_compute. reflexivity.
  - rewrite chunk_loop_unfold.
    assert (E1 : (103 <? Py.len Inputs.stuck_text) = true) by (vm_compute; reflexivity).
    assert (E2 : window_end default_config Inputs.stuck_text 103 = 203)
      by (vm_compute; reflexivity).
    assert (E3 : next_start default_config Inputs.stuck_text 203 = 103)
      by (vm_compute; reflexivity).
    rewrite E1. cbv zeta. rewrite E2, E3. apply IH.
Qed.

End ChunkerFacts.

Module ChunkerClaims.
Import Chunker ChunkerFacts.

(** Claim C2 (code defect): [_chunk_text] does not terminate on
    [Inputs.stuck_text] with the default configuration (500, 100): the
    first window is cut at the sentence end at 201 ([end] = 203) and the
    scan restarts at 103; from 103 the same boundary is found again, so
    [end] = 203 and [start] = 203 - 100 = 103 forever. No amount of fuel
    lets the loop exit. *)
Theorem chunk_text_stuck_text_diverges :
  ~ (exists fuel cs, _chunk_text fuel default_config Inputs.stuck_text = Some cs).
Proof.
  intros (fuel & cs & H). unfold _chunk_text in H.
  destruct fuel as [|fuel]; [vm_compute in H; discriminate|].
  rewrite chunk_loop_unfold in H.
  assert (E1 : (0 <? Py.len Inputs.stuck_text) = true) by (vm_compute; reflexivity).
  assert (E2 : window_end default_config Inputs.stuck_text 0 = 203)
    by (vm_compute; reflexivity).
  assert (E3 : next_start default_config Inputs.stuck_text 203 = 103)
    by (vm_compute; reflexivity).
  rewrite E1 in H. cbv zeta in H. rewrite E2, E3 in H.
  rewrite stuck_from_103 in H. discriminate.
Qed.

(** Claim C4 (code defect): with the default configuration, the text
    ["a"] + 1000 spaces + ["b"] gives two chunks, [(0, 500)] and
    [(800, 1002)]; the blank window [(400, 900)] between them is dropped,
    and the second chunk starts after the first one ends. *)
Lemma chunk_overlap_blank_gap_cex :
  exists c0 c1,
    _chunk_text 3 default_config Inputs.blank_gap_text = Some [c0; c1] /\
    ~ (start_idx c1 < end_idx c0).
Proof.
  eexists _, _. split; [vm_compute; reflexivity|]. simpl. lia.
Qed.



End ChunkerClaims.

Module DictFacts.
Import Dict.

Lemma get_set_eq d k v : get (set d k v) k = Some v.
Proof.
  induction d as [|[k' v'] d IH]; simpl.
  - rewrite String.eqb_refl. reflexivity.
  - destruct (String.eqb_spec k k') as [->|Hne]; simpl.
    + rewrite String.eqb_refl. reflexivity.
    + destruct (String.eqb_spec k k'); [contradiction|]. exact IH.
Qed.

Lemma get_set_ne d k k' v : k <> k' -> get (set d k v) k' = get d k'.
Proof.
  intros Hne. induction d as [|[k0 v0] d IH]; simpl.
  - destruct (String.eqb_spec k' k); [congruence|reflexivity].
  - destruct (String.eqb_spec k k0) as [->|Hk0]; simpl.
    + destruct (String.eqb_spec k' k0); [congruence|reflexivity].
    + destruct (String.eqb_spec k' k0); [reflexivity|exact IH].
Qed.

Lemma get_set_defined d k k' v : get d k' <> None -> get (set d k v) k' <> None.
Proof.
  intros H. destruct (String.eqb_spec k k') as [->|Hne].
  - rewrite get_set_eq. discriminate.
  - rewrite get_set_ne by exact Hne. exact H.
Qed.

Lemma get_merge_absent d1 d2 k : get d2 k = None -> get (merge d1 d2) k = get d1 k.
Proof.
  unfold merge. revert d1. induction d2 as [|[k2 v2] d2 IH]; intros d1 H; simpl in *.
  - reflexivity.
  - destruct (String.eqb_spec k k2) as [->|Hne]; [discriminate|].
    rewrite IH by exact H. apply get_set_ne. congruence.
Qed.

Lemma get_merge_defined d1 d2 k : get d1 k <> None -> get (merge d1 d2) k <> None.
Proof.
  unfold merge. revert d1. induction d2 as [|[k2 v2] d2 IH]; intros d1 H; simpl.
  - exact H.
  - apply IH. apply get_set_defined. exact H.
Qed.

End DictFacts.

Module IndexFacts.
Import Dict Service Invariants DictFacts.

Lemma faiss_add_one ix v ix' :
  Faiss.add ix [v] = Some ix' ->
  ix' = {| Faiss.ix_d := Faiss.ix_d ix; Faiss.ix_vecs := Faiss.ix_vecs ix ++ [v] |} /\
  Faiss.has_dim (Faiss.ix_d ix) v = true.
Proof.
  unfold Faiss.add. simpl. destruct (Faiss.has_dim (Faiss.ix_d ix) v) eqn:E; simpl.
  - intros H. injection H as <-. split; reflexivity.
  - discriminate.
Qed.

Lemma make_record_document_id d i c cg md :
  get (make_record d i c cg md) "document_id" <> None.
Proof. unfold make_record. apply get_merge_defined. simpl. discriminate. Qed.

Lemma make_record_ids d i c cg md :
  no_id_keys md ->
  get (make_record d i c cg md) "document_id" = Some (VStr d) /\
  get (make_record d i c cg md) "chunk_id" = Some (VStr (chunk_id_of d i)).
Proof.
  intros [H1 H2]. unfold make_record.
  rewrite !get_merge_absent by assumption. split; reflexivity.
Qed.

Lemma index_loop_spec st d md g tc i pairs :
  wf st ->
  let st' := outcome_state (index_loop st d md g tc i pairs) in
  wf st' /\ chunk_cfg st' = chunk_cfg st /\
  exists k, (k <= length pairs)%nat /\
    _metadata st' = _metadata st ++ new_records d md g tc i (take k pairs).
Proof.
  revert st i. induction pairs as [|[c e] pairs IH]; intros st i Hwf; simpl.
  - split; [exact Hwf|]. split; [reflexivity|]. exists 0%nat. split; [lia|].
    rewrite app_nil_r. reflexivity.
  - destruct (Faiss.add (_index st) [normalize e]) as [ix'|] eqn:Hadd; simpl.
    + apply faiss_add_one in Hadd as [-> Hdim].
      destruct Hwf as (Hd & Hv & Hal & Hdoc).
      edestruct (IH (with_store st
                       {| Faiss.ix_d := Faiss.ix_d (_index st);
                          Faiss.ix_vecs := Faiss.ix_vecs (_index st) ++ [normalize e] |}
                       (_metadata st ++ [make_record d i c
                          (Grounding._find_grounding_for_chunk c g tc) md]))
                   (S i)) as (Hwf' & Hcfg & k & Hk & Hmd).
      { unfold wf, aligned, Faiss.ntotal in *. simpl. split; [exact Hd|].
        split; [apply Forall_app; split; [exact Hv|]; constructor; [rewrite <- Hd; exact Hdim|constructor]|].
        split; [rewrite !length_app; simpl; lia|].
        apply Forall_app. split; [exact Hdoc|]. constructor; [apply make_record_document_id|constructor]. }
      split; [exact Hwf'|]. split; [exact Hcfg|].
      exists (S k). split; [lia|]. rewrite Hmd. simpl.
      unfold new_records. rewrite imap_cons, <- app_assoc. simpl.
      rewrite Nat.add_0_r. f_equal. f_equal. apply imap_ext. intros j x _. simpl.
      rewrite Nat.add_succ_r. reflexivity.
    + split; [exact Hwf|]. split; [reflexivity|]. exists 0%nat. split; [lia|].
      rewrite app_nil_r. reflexivity.
Qed.

Lemma index_document_spec fuel st d c md g es o :
  wf st -> index_document fuel st d c md g es = Some o ->
  wf (outcome_state o) /\
  exists pairs k, _metadata (outcome_state o) =
                  _metadata st ++ new_records d md g (Py.len c) 0 (take k pairs).
Proof.
  intros Hwf. unfold index_document.
  destruct (Chunker._chunk_text fuel (chunk_cfg st) c) as [chunks|]; [|discriminate].
  destruct es as [es|].
  - pose proof (index_loop_spec st d md g (Py.len c) 0 (zip chunks es) Hwf)
      as (Hwf' & _ & k & _ & Hmd).
    destruct (index_loop st d md g (Py.len c) 0 (zip chunks es)); intros H;
      injection H as <-; simpl in *; (split; [exact Hwf'|]); eauto.
  - intros H. injection H as <-. simpl. split; [exact Hwf|].
    exists [], 0%nat. simpl. rewrite app_nil_r. reflexivity.
Qed.

End IndexFacts.

Module DeleteFacts.
Import Dict Service Invariants DictFacts.

Lemma keep_pair_of_document d v m :
  has_document_id m -> keep_pair d (v, m) = negb (of_document d m).
Proof.
  unfold has_document_id, keep_pair, keeps, of_document. simpl.
  destruct (get m "document_id"); [|congruence]. intros _.
  destruct (is_str p d); reflexivity.
Qed.

Lemma indices_to_keep_total d i ms :
  Forall has_document_id ms -> exists keep, indices_to_keep d i ms = Some keep.
Proof.
  intros H. revert i. induction H as [|m ms Hm Hms IH]; intros i; simpl.
  - eauto.
  - destruct (IH (S i)) as [keep ->]. unfold keeps, has_document_id in *.
    destruct (get m "document_id"); [|congruence].
    destruct (negb (is_str p d)); eauto.
Qed.

Lemma omap_cons_some {A B} (f : A -> option B) x l y :
  f x = Some y -> omap f (x :: l) = y :: omap f l.
Proof. intros H. simpl. rewrite H. reflexivity. Qed.

(** [indices_to_keep] selects exactly the kept (vector, record) pairs;
    [Vp], [Mp] are the already scanned prefixes. *)
Lemma indices_to_keep_spec d dim Vp Mp vs ms keep :
  length Vp = length Mp -> length vs = length ms ->
  indices_to_keep d (length Mp) ms = Some keep ->
  reconstruct_all {| Faiss.ix_d := dim; Faiss.ix_vecs := Vp ++ vs |} keep =
    Some (map fst (List.filter (keep_pair d) (zip vs ms))) /\
  omap (fun j => (Mp ++ ms) !! j) keep =
    map snd (List.filter (keep_pair d) (zip vs ms)).
Proof.
  revert Vp Mp vs keep. induction ms as [|m ms IH]; intros Vp Mp vs keep HP Hl H.
  - destruct vs; [|discriminate]. simpl in H. injection H as <-. split; reflexivity.
  - destruct vs as [|v vs]; [discriminate|]. simpl in Hl, H.
    assert (Hn : length (Mp ++ [m]) = S (length Mp)) by (rewrite length_app; simpl; lia).
    destruct (keeps d m) as [[|]|] eqn:Ek;
      destruct (indices_to_keep d (S (length Mp)) ms) as [is|] eqn:Ei;
      try discriminate; injection H as <-;
      rewrite <- Hn in Ei;
      (destruct (IH (Vp ++ [v]) (Mp ++ [m]) vs is) as [IH1 IH2];
       [rewrite !length_app; simpl; lia | lia | exact Ei |]);
      rewrite <- !app_assoc in IH1, IH2; simpl in IH1, IH2.
    + assert (E : List.filter (keep_pair d) (zip (v :: vs) (m :: ms)) =
                  (v, m) :: List.filter (keep_pair d) (zip vs ms))
        by (simpl; unfold keep_pair at 1; simpl; rewrite Ek; reflexivity).
      rewrite E. split.
      * simpl. unfold Faiss.reconstruct at 1. simpl.
        rewrite list_lookup_middle by (symmetry; exact HP). rewrite IH1. reflexivity.
      * rewrite (omap_cons_some _ _ _ m) by (apply list_lookup_middle; reflexivity).
        rewrite IH2. reflexivity.
    + assert (E : List.filter (keep_pair d) (zip (v :: vs) (m :: ms)) =
                  List.filter (keep_pair d) (zip vs ms))
        by (simpl; unfold keep_pair at 1; simpl; rewrite Ek; reflexivity).
      rewrite E. split; assumption.
Qed.

Lemma reconstruct_all_length ix keep vs :
  reconstruct_all ix keep = Some vs -> length vs = length keep.
Proof.
  revert vs. induction keep as [|j keep IH]; intros vs H; simpl in H.
  - injection H as <-. reflexivity.
  - destruct (Faiss.reconstruct ix j); [|discriminate].
    destruct (reconstruct_all ix keep) eqn:E; [|discriminate].
    injection H as <-. simpl. f_equal. apply IH. reflexivity.
Qed.

Lemma filter_full {A} (f : A -> bool) l :
  length (List.filter f l) = length l -> List.filter f l = l.
Proof.
  induction l as [|x l IH]; simpl; [reflexivity|].
  destruct (f x); simpl; intros H.
  - f_equal. apply IH. lia.
  - pose proof (List.filter_length_le f l) as Hle. lia.
Qed.

Lemma zip_map_fst_snd {A B} (l : list (A * B)) : zip (map fst l) (map snd l) = l.
Proof. induction l as [|[a b] l IH]; simpl; [reflexivity|]. rewrite IH. reflexivity. Qed.

Lemma kept_count d vs ms :
  length vs = length ms -> Forall has_document_id ms ->
  (length (List.filter (keep_pair d) (zip vs ms)) +
   length (List.filter (of_document d) ms) = length ms)%nat.
Proof.
  revert vs. induction ms as [|m ms IH]; intros vs Hl Hd; destruct vs as [|v vs];
    try discriminate; simpl; [reflexivity|].
  inversion Hd as [|? ? Hm Hms]; subst. simpl in Hl.
  rewrite keep_pair_of_document by exact Hm.
  specialize (IH vs ltac:(lia) Hms).
  destruct (of_document d m); simpl; lia.
Qed.

Lemma forall_kept_fst {A B} (P : A -> Prop) (f : A * B -> bool) vs ms :
  Forall P vs -> Forall P (map fst (List.filter f (zip vs ms))).
Proof.
  revert ms. induction vs as [|v vs IH]; intros ms H; destruct ms as [|m ms]; simpl;
    try constructor.
  inversion H; subst. destruct (f (v, m)); simpl; [constructor|]; auto.
Qed.

Lemma forall_kept_snd {A B} (P : B -> Prop) (f : A * B -> bool) vs ms :
  Forall P ms -> Forall P (map snd (List.filter f (zip vs ms))).
Proof.
  revert ms. induction vs as [|v vs IH]; intros ms H; destruct ms as [|m ms]; simpl;
    try constructor.
  inversion H; subst. destruct (f (v, m)); simpl; [constructor|]; auto.
Qed.

(** The effect of [delete_document] on a well-formed store. *)
Lemma delete_document_spec st d :
  wf st ->
  exists st' n, delete_document st d = Ret st' n /\ wf st' /\
    chunk_cfg st' = chunk_cfg st /\
    zip (Faiss.ix_vecs (_index st')) (_metadata st') =
      List.filter (keep_pair d) (zip (Faiss.ix_vecs (_index st)) (_metadata st)) /\
    n = Z.of_nat (length (List.filter (of_document d) (_metadata st))).
Proof.
  intros Hwf. pose proof Hwf as (Hd & Hv & Hal & Hdoc).
  unfold aligned, Faiss.ntotal in Hal.
  destruct (indices_to_keep_total d 0 _ Hdoc) as [keep Hkeep].
  destruct (indices_to_keep_spec d (Faiss.ix_d (_index st)) [] [] _ _ keep
              eq_refl Hal Hkeep) as [Hrec Hmeta].
  pose proof (kept_count d _ _ Hal Hdoc) as Hcount.
  assert (Hlk : length keep =
                length (List.filter (keep_pair d)
                          (zip (Faiss.ix_vecs (_index st)) (_metadata st)))).
  { apply reconstruct_all_length in Hrec. rewrite length_map in Hrec. lia. }
  unfold delete_document. rewrite Hkeep.
  destruct (Z.of_nat (length (_metadata st)) - Z.of_nat (length keep) =? 0) eqn:Ez.
  - apply Z.eqb_eq in Ez. exists st, 0. split; [reflexivity|].
    split; [exact Hwf|]. split; [reflexivity|]. split.
    + symmetry. apply filter_full. rewrite length_zip. lia.
    + lia.
  - destruct keep as [|j keep'] eqn:Ek.
    + eexists _, _. split; [reflexivity|]. split.
      { unfold wf, aligned, Faiss.ntotal. simpl. repeat split; constructor. }
      split; [reflexivity|]. simpl in Hlk. split.
      * simpl. destruct (List.filter _ _); [reflexivity|discriminate].
      * simpl in *. lia.
    + rewrite <- Ek in *. destruct Hal. simpl in Hrec.
      destruct st as [cfg [dim vecs] ms]; simpl in *.
      rewrite Hrec. unfold Faiss.add. simpl.
      assert (Hall : forallb (Faiss.has_dim dimension)
                 (map fst (List.filter (keep_pair d) (zip vecs ms))) = true).
      { apply forallb_forall. intros x Hx.
        pose proof (forall_kept_fst _ (keep_pair d) vecs ms Hv) as HF.
        rewrite List.Forall_forall in HF. exact (HF x Hx). }
      rewrite Hall. eexists _, _. split; [reflexivity|]. split.
      { unfold wf, aligned, Faiss.ntotal, with_store. simpl. split; [reflexivity|].
        split; [apply forall_kept_fst; exact Hv|]. split.
        - rewrite Hmeta, !length_map. reflexivity.
        - rewrite Hmeta. apply forall_kept_snd. exact Hdoc. }
      split; [reflexivity|]. split.
      * unfold with_store. simpl. rewrite Hmeta. apply zip_map_fst_snd.
      * rewrite Hlk in *. lia.
Qed.

End DeleteFacts.

Module OpFacts.
Import Dict Service Invariants DictFacts IndexFacts DeleteFacts.

Lemma exec_op_wf fuel st o st' :
  wf st -> exec_op fuel st o = Some st' -> wf st'.
Proof.
  intros Hwf. destruct o as [d c m g e|d]; simpl.
  - destruct (index_document fuel st d c m g e) as [o|] eqn:Hi; [|discriminate].
    apply index_document_spec in Hi as [Hwf' _]; [|exact Hwf].
    destruct o; intros H; injection H as <-; exact Hwf'.
  - destruct (delete_document_spec st d Hwf) as (st'' & n & -> & Hwf' & _).
    intros H. injection H as <-. exact Hwf'.
Qed.

Lemma run_wf fuel ops st :
  wf st -> Forall wf (run fuel st ops).
Proof.
  revert st. induction ops as [|o ops IH]; intros st Hwf; simpl; [constructor|].
  destruct (exec_op fuel st o) as [st'|] eqn:He; [|constructor].
  pose proof (exec_op_wf _ _ _ _ Hwf He) as Hwf'. constructor; [exact Hwf'|].
  apply IH. exact Hwf'.
Qed.

Lemma chunk_ids_app d l1 l2 : chunk_ids d (l1 ++ l2) = chunk_ids d l1 ++ chunk_ids d l2.
Proof. unfold chunk_ids. apply omap_app. Qed.

Lemma chunk_ids_absent d ms :
  Forall (fun r => of_document d r = false) ms -> chunk_ids d ms = [].
Proof.
  induction 1 as [|m ms Hm _ IH]; [reflexivity|].
  unfold chunk_ids in *. simpl. rewrite Hm. exact IH.
Qed.

Lemma chunk_ids_new_records d md g tc i pairs :
  no_id_keys md ->
  chunk_ids d (new_records d md g tc i pairs) =
  map (fun j => VStr (chunk_id_of d j)) (seq i (length pairs)).
Proof.
  intros Hk. revert i. induction pairs as [|p pairs IH]; intros i; [reflexivity|].
  unfold new_records in *. rewrite imap_cons. unfold chunk_ids in *. simpl.
  destruct (make_record_ids d (i + 0) (fst p)
              (Grounding._find_grounding_for_chunk (fst p) g tc) md Hk) as [H1 H2].
  unfold of_document at 1. rewrite H1. simpl. rewrite String.eqb_refl, H2.
  rewrite Nat.add_0_r. f_equal. rewrite <- (IH (S i)). f_equal.
  apply imap_ext. intros j x _. simpl. rewrite Nat.add_succ_r. reflexivity.
Qed.

Lemma chunk_ids_new_records_other d d0 md g tc i pairs :
  no_id_keys md -> d0 <> d -> chunk_ids d0 (new_records d md g tc i pairs) = [].
Proof.
  intros Hk Hne. apply chunk_ids_absent. unfold new_records.
  apply Forall_lookup. intros j r Hj. apply list_lookup_imap_Some in Hj as (p & _ & ->).
  unfold of_document. rewrite (proj1 (make_record_ids _ _ _ _ _ Hk)). simpl.
  destruct (String.eqb_spec d d0); congruence.
Qed.

Lemma chunk_id_of_inj d i j : chunk_id_of d i = chunk_id_of d j -> i = j.
Proof.
  unfold chunk_id_of. intros H.
  apply (inj (String.append d)) in H. apply (inj (String.append "_")) in H.
  apply (inj pretty) in H. exact H.
Qed.

Lemma chunk_ids_seq_NoDup d i n :
  NoDup (map (fun j => VStr (chunk_id_of d j)) (seq i n)).
Proof.
  revert i. induction n as [|n IH]; intros i; simpl; constructor; [|apply IH].
  intros Hin. apply list_elem_of_In, List.in_map_iff in Hin as (j & Hj & Hin).
  injection Hj as Hj. apply chunk_id_of_inj in Hj. subst j.
  apply List.in_seq in Hin. lia.
Qed.

Lemma map_snd_zip {A B} (a : list A) (b : list B) :
  length a = length b -> map snd (zip a b) = b.
Proof.
  revert b. induction a as [|x a IH]; intros [|y b] H; simpl in *;
    try discriminate; [reflexivity|]. rewrite IH by lia. reflexivity.
Qed.

Lemma chunk_ids_kept_sublist d0 f (vs : list Faiss.vec) ms :
  chunk_ids d0 (map snd (List.filter f (zip vs ms))) `sublist_of` chunk_ids d0 ms.
Proof.
  revert ms. induction vs as [|v vs IH]; intros ms.
  - simpl. apply sublist_nil_l.
  - destruct ms as [|m ms]; simpl; [apply sublist_nil_l|].
    unfold chunk_ids in *. destruct (f (v, m)); simpl.
    + destruct (if of_document d0 m then get m "chunk_id" else None);
        [apply sublist_skip|]; apply IH.
    + destruct (if of_document d0 m then get m "chunk_id" else None);
        [apply sublist_cons|]; apply IH.
Qed.

End OpFacts.

Module SearchFacts.
Import Dict Service Invariants DictFacts.

Lemma ranks_below_spec a b :
  Faiss.ranks_below a b = true <-> fst a < fst b \/ (fst a = fst b /\ snd a < snd b).
Proof.
  unfold Faiss.ranks_below.
  rewrite orb_true_iff, andb_true_iff, !Z.ltb_lt, Z.eqb_eq. reflexivity.
Qed.

Lemma ranks_below_false a b :
  Faiss.ranks_below a b = false <-> ~ (fst a < fst b \/ (fst a = fst b /\ snd a < snd b)).
Proof. rewrite <- not_true_iff_false, ranks_below_spec. reflexivity. Qed.

Ltac ranks :=
  cbv beta in *;
  repeat match goal with
  | H : Faiss.ranks_below _ _ = true |- _ => apply ranks_below_spec in H
  | H : Faiss.ranks_below _ _ = false |- _ => apply ranks_below_false in H
  | |- Faiss.ranks_below _ _ = true => apply ranks_below_spec
  | |- Faiss.ranks_below _ _ = false => apply ranks_below_false
  end.

Lemma ssorted_impl {A} (R S : A -> A -> Prop) l :
  (forall a b, R a b -> S a b) -> StronglySorted R l -> StronglySorted S l.
Proof.
  intros HRS. induction 1 as [|x l _ IH Hf]; constructor; [exact IH|].
  eapply Forall_impl; [exact Hf|]. exact (HRS x).
Qed.

Lemma ssorted_filter {A} (R : A -> A -> Prop) (f : A -> bool) l :
  StronglySorted R l -> StronglySorted R (List.filter f l).
Proof.
  induction l as [|x l IH]; intros H; simpl; [constructor|].
  apply StronglySorted_inv in H as [Hs Hf].
  destruct (f x); [constructor|]; auto.
  apply List.Forall_forall. intros y Hy. apply List.filter_In in Hy as [Hy _].
  rewrite List.Forall_forall in Hf. auto.
Qed.

Lemma ssorted_snoc {A} (R : A -> A -> Prop) l x :
  StronglySorted R l -> Forall (fun a => R a x) l -> StronglySorted R (l ++ [x]).
Proof.
  induction 1 as [|y l _ IH Hf]; intros Hx; simpl; [repeat constructor|].
  inversion Hx as [|? ? Hyx Hx']; subst. constructor; [apply IH; exact Hx'|].
  apply Forall_app. split; [exact Hf|]. constructor; [exact Hyx|constructor].
Qed.

Lemma ssorted_rev {A} (R : A -> A -> Prop) l :
  StronglySorted R l -> StronglySorted (fun a b => R b a) (rev l).
Proof.
  induction 1 as [|x l _ IH Hf]; simpl; [constructor|].
  apply ssorted_snoc; [exact IH|]. apply Forall_rev. exact Hf.
Qed.

Lemma ssorted_nodup {A} (R : A -> A -> Prop) l :
  StronglySorted R l -> NoDup l -> StronglySorted (fun a b => R a b /\ a <> b) l.
Proof.
  induction 1 as [|x l _ IH Hf]; intros Hn; [constructor|].
  inversion Hn as [|? ? Hx Hn']; subst. constructor; [apply IH; exact Hn'|].
  apply List.Forall_forall. intros y Hy. rewrite List.Forall_forall in Hf.
  split; [apply Hf; exact Hy|]. intros ->. apply Hx, list_elem_of_In. exact Hy.
Qed.

Lemma heap_insert_forall (P : Z * Z -> Prop) r h :
  P r -> Forall P h -> Forall P (Faiss.heap_insert r h).
Proof.
  intros Hr Hh. induction Hh as [|x h Hx Hh IH]; simpl; [constructor; auto|].
  destruct (Faiss.ranks_below r x); constructor; auto.
Qed.

Lemma heap_insert_length r h : length (Faiss.heap_insert r h) = S (length h).
Proof.
  induction h as [|x h IH]; simpl; [reflexivity|].
  destruct (Faiss.ranks_below r x); simpl; [reflexivity|]. rewrite IH. reflexivity.
Qed.

Lemma heap_insert_sorted r h :
  StronglySorted (fun a b => Faiss.ranks_below b a = false) h ->
  StronglySorted (fun a b => Faiss.ranks_below b a = false) (Faiss.heap_insert r h).
Proof.
  induction h as [|x h IH]; intros H; simpl; [repeat constructor|].
  apply StronglySorted_inv in H as [Hs Hf].
  destruct (Faiss.ranks_below r x) eqn:E.
  - constructor; [constructor; assumption|]. constructor.
    + ranks. destruct r, x; simpl in *. lia.
    + eapply Forall_impl; [exact Hf|]. intros b Hb. ranks.
      destruct r, x, b; simpl in *. lia.
  - apply SSorted_cons; [apply IH; exact Hs|].
    apply heap_insert_forall; [exact E|exact Hf].
Qed.

Lemma filter_heap_insert (f : Z * Z -> bool) r h :
  List.filter f (Faiss.heap_insert r h) ≡ₚ List.filter f (r :: h).
Proof.
  induction h as [|x h IH]; simpl; [reflexivity|].
  destruct (Faiss.ranks_below r x); [reflexivity|]. simpl.
  destruct (f x).
  - rewrite IH. simpl. destruct (f r); [apply perm_swap|reflexivity].
  - rewrite IH. reflexivity.
Qed.

Lemma heap_scan_length h rows : length (Faiss.heap_scan h rows) = length h.
Proof.
  revert h. induction rows as [|r rows IH]; intros [|x h]; simpl; try reflexivity.
  - apply IH.
  - destruct (fst x <? fst r); rewrite IH; [apply heap_insert_length|reflexivity].
Qed.

Lemma heap_scan_forall (P : Z * Z -> Prop) h rows :
  Forall P h -> Forall P rows -> Forall P (Faiss.heap_scan h rows).
Proof.
  intros Hh Hr. revert h Hh. induction Hr as [|r rows Hr _ IH]; intros [|x h] Hh; simpl;
    try exact Hh; [apply IH; constructor|].
  inversion Hh as [|? ? Hx Hh']; subst.
  destruct (fst x <? fst r); apply IH; [apply heap_insert_forall; assumption|exact Hh].
Qed.

Lemma heap_scan_sorted h rows :
  StronglySorted (fun a b => Faiss.ranks_below b a = false) h ->
  StronglySorted (fun a b => Faiss.ranks_below b a = false) (Faiss.heap_scan h rows).
Proof.
  revert h. induction rows as [|r rows IH]; intros [|x h] Hh; simpl; try exact Hh;
    [apply IH; constructor|].
  destruct (fst x <? fst r); apply IH; [|exact Hh].
  apply heap_insert_sorted. apply StronglySorted_inv in Hh as [Hh _]. exact Hh.
Qed.

Lemma filter_cons_sublist (f : Z * Z -> bool) x h :
  List.filter f h `sublist_of` List.filter f (x :: h).
Proof. simpl. destruct (f x); [apply sublist_cons|]; reflexivity. Qed.

Lemma heap_scan_nodup (f : Z * Z -> bool) h rows :
  NoDup rows -> Forall (fun r => f r = true) rows -> NoDup (List.filter f h) ->
  Forall (fun r => ~ In r rows) (List.filter f h) ->
  NoDup (List.filter f (Faiss.heap_scan h rows)).
Proof.
  revert h. induction rows as [|r rows IH]; intros h Hn Hr Hh Hd; [exact Hh|].
  inversion Hn as [|? ? Hnr0 Hn']; subst. inversion Hr as [|? ? Hfr Hr']; subst.
  assert (Hnr : ~ In r rows) by (intros Hin; apply Hnr0, list_elem_of_In, Hin).
  assert (Hd' : Forall (fun y => ~ In y rows) (List.filter f h)).
  { eapply Forall_impl; [exact Hd|]. intros y Hy Hin. apply Hy. right. exact Hin. }
  destruct h as [|x h]; simpl; [apply IH; auto; constructor|].
  assert (Hsub := filter_cons_sublist f x h).
  destruct (fst x <? fst r); apply IH; auto.
  - rewrite (filter_heap_insert f r h).
    simpl. rewrite Hfr. constructor.
    + intros Hin. apply list_elem_of_In in Hin. apply List.filter_In in Hin as [Hin Hfx].
      rewrite List.Forall_forall in Hd. apply (Hd r); [|left; reflexivity].
      simpl. destruct (f x) eqn:Ex.
      * right. apply List.filter_In. split; assumption.
      * apply List.filter_In. split; assumption.
    + eapply sublist_NoDup; [exact Hh|exact Hsub].
  - apply List.Forall_forall. intros y Hy.
    apply (Permutation_in _ (filter_heap_insert f r h)) in Hy. simpl in Hy.
    rewrite Hfr in Hy. destruct Hy as [<-|Hy]; [exact Hnr|].
    rewrite List.Forall_forall in Hd'. apply Hd'. apply list_elem_of_In.
    eapply elem_of_sublist; [apply list_elem_of_In; exact Hy|exact Hsub].
Qed.

Lemma sorted_scores l :
  StronglySorted ranked_before l -> Sorted Z.ge (map fst l).
Proof.
  induction l as [|x l IH]; intros H; simpl; [constructor|].
  apply StronglySorted_inv in H as [Hs Hf]. constructor; [auto|].
  destruct l as [|y l]; simpl; constructor.
  inversion Hf; subst. unfold ranked_before in *. lia.
Qed.

Lemma collect_sound metadata threshold rows rs :
  collect metadata threshold rows = Some rs ->
  Forall2 (result_of metadata) (List.filter (kept_row threshold) rows) rs.
Proof.
  revert rs. induction rows as [|[s i] rows IH]; intros rs H; simpl in *.
  - injection H as <-. constructor.
  - unfold kept_row at 1. simpl.
    destruct ((i <? 0) || (s <? threshold)); simpl; [apply IH; exact H|].
    destruct (metadata !! Z.to_nat i) as [m|] eqn:Hm; [|discriminate].
    destruct (collect metadata threshold rows) as [rs'|]; [|discriminate].
    injection H as <-. constructor; [|apply IH; reflexivity].
    exists m. simpl. split; [exact Hm|reflexivity].
Qed.

Lemma collect_total metadata threshold rows :
  Forall (fun row => snd row < 0 \/ (Z.to_nat (snd row) < length metadata)%nat) rows ->
  exists rs, collect metadata threshold rows = Some rs.
Proof.
  induction 1 as [|[s i] rows Hrow _ [rs IH]]; simpl; [eauto|].
  destruct ((i <? 0) || (s <? threshold)) eqn:E; [eauto|].
  destruct Hrow as [Hneg|Hlt]; simpl in *.
  - apply Z.ltb_lt in Hneg. rewrite Hneg in E. discriminate.
  - destruct (lookup_lt_is_Some_2 metadata (Z.to_nat i) Hlt) as [m ->].
    rewrite IH. eauto.
Qed.

Lemma result_scores_rows metadata rows rs :
  Forall2 (result_of metadata) rows rs -> result_scores rs = map fst rows.
Proof.
  induction 1 as [|row r rows rs (m & _ & ->) _ IH]; [reflexivity|].
  unfold result_scores in *. simpl. rewrite get_set_eq. simpl. f_equal. exact IH.
Qed.

Lemma filter_pads threshold n :
  List.filter (kept_row threshold) (replicate n (Faiss.pad_score, -1)) = [].
Proof. induction n as [|n IH]; simpl; [reflexivity|]. exact IH. Qed.

Lemma imap_labels (q : Faiss.vec) (vs : list Faiss.vec) :
  Forall (fun row => 0 <= snd row /\ (Z.to_nat (snd row) < length vs)%nat)
    (imap (fun i v => (Faiss.inner q v, Z.of_nat i)) vs).
Proof.
  apply Forall_lookup. intros j row Hj.
  apply list_lookup_imap_Some in Hj as (v & Hv & ->). simpl.
  apply lookup_lt_Some in Hv. lia.
Qed.

Lemma filter_replicate_false (f : Z * Z -> bool) n x :
  f x = false -> List.filter f (replicate n x) = [].
Proof. intros Hx. induction n as [|n IH]; simpl; [reflexivity|]. rewrite Hx. exact IH. Qed.

Lemma filter_replicate_true (f : Z * Z -> bool) n x :
  f x = true -> List.filter f (replicate n x) = replicate n x.
Proof. intros Hx. induction n as [|n IH]; simpl; [reflexivity|]. rewrite Hx, IH. reflexivity. Qed.

Lemma filter_pad_labels_real (l : list (Z * Z)) :
  List.filter (fun row => snd row =? -1) (List.filter (fun r => negb (snd r =? -1)) l) = [].
Proof.
  induction l as [|x l IH]; simpl; [reflexivity|].
  destruct (snd x =? -1) eqn:E; simpl; [exact IH|]. rewrite E. exact IH.
Qed.

Lemma scored_in (q : Faiss.vec) (vs : list Faiss.vec) row :
  In row (imap (fun i v => (Faiss.inner q v, Z.of_nat i)) vs) ->
  exists i v, vs !! i = Some v /\ row = (Faiss.inner q v, Z.of_nat i).
Proof.
  intros H. apply list_elem_of_In, list_elem_of_lookup in H as [j Hj].
  apply list_lookup_imap_Some in Hj as (v & Hv & ->). eauto.
Qed.

Lemma scored_nodup (q : Faiss.vec) (vs : list Faiss.vec) :
  NoDup (imap (fun i v => (Faiss.inner q v, Z.of_nat i)) vs).
Proof.
  apply NoDup_alt. intros i j row Hi Hj.
  apply list_lookup_imap_Some in Hi as (v & _ & Hi).
  apply list_lookup_imap_Some in Hj as (w & _ & Hj).
  rewrite Hi in Hj. injection Hj as _ Hij. lia.
Qed.

Lemma heap_scan_fill (f : Z * Z -> bool) h rows :
  f (Faiss.pad_score, -1) = false ->
  StronglySorted (fun a b => Faiss.ranks_below b a = false) h ->
  Forall (fun r => r = (Faiss.pad_score, -1) \/ (Faiss.pad_score < fst r /\ f r = true)) h ->
  Forall (fun r => Faiss.pad_score < fst r /\ f r = true) rows ->
  (length (List.filter f h) + length rows <= length h)%nat ->
  length (List.filter f (Faiss.heap_scan h rows)) = (length (List.filter f h) + length rows)%nat.
Proof.
  intros Hpad. revert h.
  induction rows as [|r rows IH]; intros h Hs Hh Hr Hl; simpl; [lia|].
  inversion Hr as [|? ? [Hr1 Hr2] Hr']; subst.
  destruct h as [|x h]; [simpl in Hl; lia|].
  inversion Hh as [|? ? Hx Hh']; subst.
  apply StronglySorted_inv in Hs as [Hs Hf].
  assert (Hxpad : x = (Faiss.pad_score, -1)).
  { destruct Hx as [->|[Hx1 Hx2]]; [reflexivity|exfalso].
    assert (Hin : In (Faiss.pad_score, -1) h).
    { clear -Hh' Hl Hx2 Hpad. simpl in Hl. rewrite Hx2 in Hl. simpl in Hl.
      induction Hh' as [|y h Hy _ IHh]; simpl in *; [lia|].
      destruct Hy as [->|[_ Hy]]; [left; reflexivity|right].
      rewrite Hy in Hl. simpl in Hl. apply IHh. lia. }
    rewrite List.Forall_forall in Hf. specialize (Hf _ Hin). ranks.
    destruct x; simpl in *. apply Hf. left. exact Hx1. }
  subst x. simpl. replace (Faiss.pad_score <? fst r) with true
    by (symmetry; apply Z.ltb_lt; exact Hr1).
  simpl in Hl. rewrite Hpad in Hl.
  assert (Hc : length (List.filter f (Faiss.heap_insert r h)) = S (length (List.filter f h))).
  { rewrite (Permutation_length (filter_heap_insert f r h)). simpl. rewrite Hr2. reflexivity. }
  rewrite IH; [rewrite Hc, Hpad; simpl; lia| | | exact Hr'|].
  - apply heap_insert_sorted. exact Hs.
  - apply heap_insert_forall; [right; split; assumption|exact Hh'].
  - rewrite Hc, heap_insert_length. simpl in Hl. lia.
Qed.

Lemma faiss_search_shape ix q k rows :
  Faiss.search ix q k = Some rows ->
  exists top, rows = top ++ replicate (Z.to_nat k - length top) (Faiss.pad_score, -1) /\
    0 < k /\ (length top <= Z.to_nat k)%nat /\ NoDup top /\
    Forall (fun row => In row (imap (fun i v => (Faiss.inner q v, Z.of_nat i)) (Faiss.ix_vecs ix)))
      top /\
    StronglySorted (fun a b => Faiss.ranks_below b a = true) top.
Proof.
  unfold Faiss.search. destruct ((k <=? 0) || negb (Faiss.has_dim (Faiss.ix_d ix) q)) eqn:E;
    [discriminate|].
  apply orb_false_iff in E as [E _]. apply Z.leb_gt in E.
  intros H. injection H as <-. unfold Faiss.heap_reorder.
  set (sc := imap (fun i v => (Faiss.inner q v, Z.of_nat i)) (Faiss.ix_vecs ix)).
  set (h := Faiss.heap_scan (replicate (Z.to_nat k) (Faiss.pad_score, -1)) sc).
  set (real := fun r : Z * Z => negb (snd r =? -1)).
  assert (Hlab : Forall (fun r => real r = true) sc).
  { eapply Forall_impl; [apply imap_labels|]. intros row [Hr _]. unfold real.
    apply negb_true_iff, Z.eqb_neq. lia. }
  assert (Hlen : length h = Z.to_nat k).
  { unfold h. rewrite heap_scan_length, length_replicate. reflexivity. }
  assert (Hsort : StronglySorted (fun a b => Faiss.ranks_below b a = false) h).
  { unfold h. apply heap_scan_sorted. generalize (Z.to_nat k) as n.
    induction n as [|n IH]; simpl; constructor; [exact IH|].
    apply Forall_replicate. reflexivity. }
  assert (Hmem : Forall (fun r => r = (Faiss.pad_score, -1) \/ In r sc) h).
  { unfold h. apply heap_scan_forall.
    - apply Forall_replicate. left. reflexivity.
    - apply List.Forall_forall. intros r Hr. right. exact Hr. }
  assert (Hnd : NoDup (List.filter real h)).
  { unfold h. apply heap_scan_nodup; [apply scored_nodup|exact Hlab| |].
    - rewrite filter_replicate_false by reflexivity. constructor.
    - rewrite filter_replicate_false by reflexivity. constructor. }
  rewrite List.filter_rev.
  eexists. split; [reflexivity|]. split; [lia|]. split.
  { rewrite length_rev, <- Hlen. apply List.filter_length_le. }
  split; [rewrite <- Permutation_rev; exact Hnd|]. split.
  { apply Forall_rev. apply List.Forall_forall. intros r Hr.
    apply List.filter_In in Hr as [Hr Hre]. rewrite List.Forall_forall in Hmem.
    destruct (Hmem r Hr) as [->|Hin]; [discriminate|exact Hin]. }
  eapply ssorted_impl; [|apply ssorted_nodup;
    [apply ssorted_rev, ssorted_filter; exact Hsort|rewrite <- Permutation_rev; exact Hnd]].
  intros a b [Hab Hne]. ranks. destruct a as [a1 a2], b as [b1 b2]; simpl in *.
  assert (~ (a1 = b1 /\ a2 = b2)) by (intros [-> ->]; apply Hne; reflexivity). lia.
Qed.

Lemma faiss_search_fill ix q k rows :
  Faiss.search ix q k = Some rows ->
  (Faiss.ntotal ix <= Z.to_nat k)%nat ->
  Forall (fun v => Faiss.pad_score < Faiss.inner q v) (Faiss.ix_vecs ix) ->
  length (List.filter (fun row => snd row =? -1) rows) = (Z.to_nat k - Faiss.ntotal ix)%nat.
Proof.
  unfold Faiss.search. destruct ((k <=? 0) || negb (Faiss.has_dim (Faiss.ix_d ix) q)) eqn:E;
    [discriminate|].
  intros H Hn Hsc. injection H as <-. unfold Faiss.heap_reorder.
  rewrite List.filter_app, length_app, filter_pad_labels_real.
  rewrite filter_replicate_true by reflexivity.
  rewrite length_replicate, List.filter_rev, length_rev, heap_scan_fill.
  - rewrite filter_replicate_false by reflexivity. rewrite length_imap.
    unfold Faiss.ntotal. simpl. lia.
  - reflexivity.
  - generalize (Z.to_nat k) as n.
    induction n as [|n IH]; simpl; constructor; [exact IH|].
    apply Forall_replicate. reflexivity.
  - apply Forall_replicate. left. reflexivity.
  - apply Forall_lookup. intros j row Hj.
    apply list_lookup_imap_Some in Hj as (v & Hv & ->). simpl. split.
    + rewrite Forall_lookup in Hsc. exact (Hsc _ _ Hv).
    + apply negb_true_iff, Z.eqb_neq. lia.
  - rewrite filter_replicate_false by reflexivity.
    rewrite length_imap, length_replicate. unfold Faiss.ntotal in Hn. simpl. lia.
Qed.

End SearchFacts.

Module ClaimSupport.
Import Dict Service Invariants DictFacts IndexFacts DeleteFacts OpFacts SearchFacts.

Lemma fresh_wf cfg : wf (fresh cfg).
Proof.
  unfold wf, aligned, Faiss.ntotal. simpl. split; [reflexivity|].
  split; [constructor|]. split; [reflexivity|constructor].
Qed.

Lemma last_state_wf fuel st ops :
  wf st -> wf (Inputs.last_state (run fuel st ops)).
Proof.
  intros Hwf. pose proof (run_wf fuel ops st Hwf) as H. unfold Inputs.last_state.
  destruct (last (run fuel st ops)) as [st'|] eqn:E; simpl; [|apply fresh_wf].
  apply last_Some_elem_of in E. rewrite Forall_forall in H. apply H. exact E.
Qed.

Lemma store_two_wf : wf Inputs.store_two.
Proof. apply last_state_wf. apply fresh_wf. Qed.

Lemma keep_pair_filter d (vs : list Faiss.vec) ms :
  Forall has_document_id ms ->
  List.filter (keep_pair d) (zip vs ms) =
  List.filter (fun p => negb (of_document d (snd p))) (zip vs ms).
Proof.
  revert vs. induction ms as [|m ms IH]; intros [|v vs] H; simpl; try reflexivity.
  inversion H as [|? ? Hm Hms]; subst.
  rewrite keep_pair_of_document by exact Hm. rewrite IH by exact Hms. reflexivity.
Qed.

Lemma delete_keep_length st d :
  wf st ->
  exists keep, indices_to_keep d 0 (_metadata st) = Some keep /\
    (length keep + length (List.filter (of_document d) (_metadata st)) =
     length (_metadata st))%nat.
Proof.
  intros (Hd & Hv & Hal & Hdoc). unfold aligned, Faiss.ntotal in Hal.
  destruct (indices_to_keep_total d 0 _ Hdoc) as [keep Hkeep].
  destruct (indices_to_keep_spec d (Faiss.ix_d (_index st)) [] [] _ _ keep
              eq_refl Hal Hkeep) as [Hrec _].
  apply reconstruct_all_length in Hrec. rewrite length_map in Hrec.
  pose proof (kept_count d _ _ Hal Hdoc). exists keep. split; [exact Hkeep|lia].
Qed.

Lemma search_ret_state st q k thr st' rs :
  search st q k thr = Ret st' rs -> st' = st.
Proof.
  unfold search. destruct (Faiss.ntotal (_index st) =? 0)%nat.
  - intros H. injection H as <- _. reflexivity.
  - destruct (Faiss.search _ _ _); [|discriminate].
    destruct (collect _ _ _); [|discriminate]. intros H. injection H as <- _. reflexivity.
Qed.

Lemma kept_scores_above threshold (l : list (Z * Z)) :
  Forall (fun s => threshold <= s) (map fst (List.filter (kept_row threshold) l)).
Proof.
  induction l as [|[s i] l IH]; simpl; [constructor|].
  unfold kept_row at 1. simpl. destruct ((i <? 0) || (s <? threshold)) eqn:E; simpl; [exact IH|].
  constructor; [|exact IH]. apply orb_false_iff in E as [_ E]. apply Z.ltb_ge in E. exact E.
Qed.

Lemma get_filter_excluded r x :
  In x Routers.excluded_keys ->
  get (List.filter (fun kv => negb (existsb (String.eqb (fst kv)) Routers.excluded_keys)) r) x
  = None.
Proof.
  intros Hx. induction r as [|[k v] r IH]; [reflexivity|]. cbn [List.filter fst].
  destruct (existsb (String.eqb k) Routers.excluded_keys) eqn:E; cbn [negb]; [exact IH|].
  cbn [get]. destruct (String.eqb_spec x k) as [->|]; [|exact IH].
  exfalso. assert (Hin : existsb (String.eqb k) Routers.excluded_keys = true).
  { apply existsb_exists. exists k. split; [exact Hx|apply String.eqb_refl]. }
  congruence.
Qed.

Lemma to_evidence_results_spec rs ers :
  Routers.to_evidence_results rs = Some ers ->
  Forall2 (fun r er =>
    get r "score" = Some (Routers.er_score er) /\
    Routers.er_metadata er =
      List.filter (fun kv => negb (existsb (String.eqb (fst kv)) Routers.excluded_keys)) r)
    rs ers.
Proof.
  revert ers. induction rs as [|r rs IH]; intros ers H; simpl in H.
  - injection H as <-. constructor.
  - destruct (Routers.to_evidence_result r) as [er|] eqn:Er; [|discriminate].
    destruct (Routers.to_evidence_results rs) as [ers'|]; [|discriminate].
    injection H as <-. constructor; [|apply IH; reflexivity].
    unfold Routers.to_evidence_result in Er.
    destruct (get r "document_id"), (get r "chunk_id"), (get r "text"), (get r "score") eqn:Es;
      try discriminate.
    injection Er as <-. simpl. split; reflexivity.
Qed.

Lemma all_one_max p ps : Forall (fun x => x = 1) (p :: ps) -> Grounding.max_list p ps = 1.
Proof.
  revert p. induction ps as [|q ps IH]; intros p H; inversion H as [|? ? Hp Hps]; subst.
  - reflexivity.
  - simpl. inversion Hps as [|? ? Hq Hqs]; subst. apply IH. constructor; [lia|exact Hqs].
Qed.

Lemma search_rows_valid ix q k rows :
  Faiss.search ix q k = Some rows ->
  Forall (fun row => snd row < 0 \/ (Z.to_nat (snd row) < length (Faiss.ix_vecs ix))%nat) rows.
Proof.
  intros H. destruct (faiss_search_shape _ _ _ _ H) as (top & -> & _ & _ & _ & Hin & _).
  apply Forall_app. split.
  - eapply Forall_impl; [exact Hin|]. intros row Hrow.
    pose proof (imap_labels q (Faiss.ix_vecs ix)) as Hl. rewrite List.Forall_forall in Hl.
    destruct (Hl row Hrow) as [_ H2]. right. exact H2.
  - apply Forall_replicate. left. simpl. lia.
Qed.

Lemma faiss_kept_rows ix q k thr rows :
  Faiss.search ix q k = Some rows ->
  exists top, List.filter (kept_row thr) rows = List.filter (kept_row thr) top /\
    (length top <= Z.to_nat k)%nat /\
    Forall (fun row => 0 <= snd row /\ (Z.to_nat (snd row) < length (Faiss.ix_vecs ix))%nat)
      top /\
    StronglySorted (fun a b => fst b < fst a \/ (fst b = fst a /\ snd b < snd a)) top.
Proof.
  intros H. destruct (faiss_search_shape _ _ _ _ H) as (top & -> & _ & Hl & _ & Hin & Hs).
  exists top. split; [rewrite List.filter_app, filter_pads, app_nil_r; reflexivity|].
  split; [exact Hl|]. split.
  - eapply Forall_impl; [exact Hin|]. intros row Hrow.
    pose proof (imap_labels q (Faiss.ix_vecs ix)) as Hlab. rewrite List.Forall_forall in Hlab.
    exact (Hlab row Hrow).
  - eapply ssorted_impl; [|exact Hs]. intros a b Hab. ranks. exact Hab.
Qed.

Lemma forall2_strengthen {A B} (P : A -> Prop) (R : A -> B -> Prop) l1 l2 :
  Forall P l1 -> Forall2 R l1 l2 -> Forall2 (fun a b => P a /\ R a b) l1 l2.
Proof.
  intros HP HR. induction HR as [|a b l1 l2 Hab _ IH]; constructor;
    inversion HP; subst; auto.
Qed.

Lemma search_nonempty_total st q k thr :
  wf st -> (0 < Faiss.ntotal (_index st))%nat -> 0 < k ->
  Faiss.has_dim dimension q = true ->
  exists rows rs, Faiss.search (_index st) (normalize q) k = Some rows /\
    collect (_metadata st) thr rows = Some rs /\ search st q k thr = Ret st rs.
Proof.
  intros (Hd & _ & Hal & _) Hn Hk Hq.
  assert (Hs : exists rows, Faiss.search (_index st) (normalize q) k = Some rows).
  { unfold Faiss.search. rewrite Hd. unfold normalize. rewrite Hq.
    replace (k <=? 0) with false by (symmetry; apply Z.leb_gt; lia). simpl. eauto. }
  destruct Hs as [rows Hrows].
  destruct (collect_total (_metadata st) thr rows) as [rs Hrs].
  { eapply Forall_impl; [exact (search_rows_valid _ _ _ _ Hrows)|].
    unfold aligned, Faiss.ntotal in Hal. rewrite <- Hal. auto. }
  exists rows, rs. split; [exact Hrows|]. split; [exact Hrs|].
  unfold search. replace (Faiss.ntotal (_index st) =? 0)%nat with false
    by (symmetry; apply Nat.eqb_neq; lia).
  cbv zeta. rewrite Hrows, Hrs. reflexivity.
Qed.

Lemma filter_none_of_document d ms :
  Forall (fun m => of_document d m = false) ms -> List.filter (of_document d) ms = [].
Proof. induction 1 as [|m ms Hm _ IH]; simpl; [reflexivity|]. rewrite Hm. exact IH. Qed.

End ClaimSupport.

Module StoreClaims.
Import Dict Service Invariants DictFacts IndexFacts DeleteFacts OpFacts SearchFacts
  ClaimSupport Inputs.

(** Claim C1: after every operation of any sequence of [index_document]
    and [delete_document] calls on a store of the shape the service
    creates, [self._index.ntotal == len(self._metadata)]. *)
Theorem index_alignment_after_ops fuel st0 ops :
  wf st0 -> Forall aligned (run fuel st0 ops).
Proof.
  intros Hwf. eapply Forall_impl; [exact (run_wf fuel ops st0 Hwf)|].
  intros st (_ & _ & Hal & _). exact Hal.
Qed.

Lemma index_alignment_after_ops_witness :
  wf (fresh Chunker.default_config) /\
  Forall aligned (run 1 (fresh Chunker.default_config) (two_docs_ops ++ [OpDelete paper_id])).
Proof.
  split; [apply fresh_wf|].
  apply (index_alignment_after_ops 1 (fresh Chunker.default_config)). apply fresh_wf.
Defined.

(** Claim C3 (counterexample): chunk_ids repeat within a document in
    two ways.  Ingesting the same document twice with no delete in
    between stores two records with chunk_id ["paper_0123456789ab_0"].
    And caller metadata that sets ["chunk_id"] overrides the generated
    ids ([**(metadata or {})] comes after them in the record literal): one ingest
    of a two-chunk text stores two records with chunk_id ["c"]. *)
Lemma chunk_ids_duplicates :
  (chunk_ids paper_id (_metadata (last_state (run 1 (fresh Chunker.default_config) reingest_ops)))
     = [VStr "paper_0123456789ab_0"; VStr "paper_0123456789ab_0"] /\
   ~ chunk_ids_distinct (last_state (run 1 (fresh Chunker.default_config) reingest_ops))) /\
  match index_document 3 (fresh Chunker.default_config) paper_id two_chunk_text
          chunk_id_override None (Some [unit_vec; unit_vec]) with
  | Some (Ret st' n) =>
      n = 2 /\ chunk_ids paper_id (_metadata st') = [VStr "c"; VStr "c"] /\
      ~ chunk_ids_distinct st'
  | _ => False
  end.
Proof.
  split.
  - assert (E : chunk_ids paper_id
                  (_metadata (last_state (run 1 (fresh Chunker.default_config) reingest_ops)))
                = [VStr "paper_0123456789ab_0"; VStr "paper_0123456789ab_0"])
      by (vm_compute; reflexivity).
    split; [exact E|]. intros H. specialize (H paper_id). rewrite E in H.
    apply NoDup_cons in H as [Hn _]. apply Hn. left.
  - assert (E : chunk_ids paper_id (_metadata (outcome_state
                  (default (Raise (fresh Chunker.default_config))
                     (index_document 3 (fresh Chunker.default_config) paper_id two_chunk_text
                        chunk_id_override None (Some [unit_vec; unit_vec])))))
                = [VStr "c"; VStr "c"])
      by (vm_compute; reflexivity).
    destruct (index_document 3 (fresh Chunker.default_config) paper_id two_chunk_text
                chunk_id_override None (Some [unit_vec; unit_vec])) as [[st' n|st']|] eqn:Ei;
      [|vm_compute in Ei; discriminate|vm_compute in Ei; discriminate].
    simpl in E. split; [vm_compute in Ei; injection Ei as _ <-; reflexivity|].
    split; [exact E|]. intros H. specialize (H paper_id). rewrite E in H.
    apply NoDup_cons in H as [Hn _]. apply Hn. left.
Qed.

(** Claim C3 (amended): one [index_document] call appends records whose
    chunk_ids for the document are [d_0, ..., d_{n-1}] when the caller's
    metadata sets neither ["document_id"] nor ["chunk_id"]; pairwise
    distinct chunk_ids per document are preserved by every delete and by
    every such ingest of a document that has no records in the store. *)
Theorem chunk_ids_per_ingest_run :
  (forall fuel st d c md g es o,
     wf st -> no_id_keys md -> index_document fuel st d c md g es = Some o ->
     exists recs, _metadata (outcome_state o) = _metadata st ++ recs /\
       chunk_ids d recs = map (fun j => VStr (chunk_id_of d j)) (seq 0 (length recs))) /\
  (forall fuel st o st',
     wf st -> chunk_ids_distinct st -> fresh_op st o -> exec_op fuel st o = Some st' ->
     chunk_ids_distinct st').
Proof.
  split.
  - intros fuel st d c md g es o Hwf Hk Hi.
    destruct (index_document_spec _ _ _ _ _ _ _ _ Hwf Hi) as (_ & pairs & k & Hmd).
    eexists. split; [exact Hmd|]. rewrite chunk_ids_new_records by exact Hk.
    unfold new_records. rewrite length_imap. reflexivity.
  - intros fuel st o st' Hwf Hd Hf. destruct o as [d c m g e|d]; simpl in *.
    + destruct Hf as [Hk Habs].
      destruct (index_document fuel st d c m g e) as [o|] eqn:Hi; [|discriminate].
      destruct (index_document_spec _ _ _ _ _ _ _ _ Hwf Hi) as (_ & pairs & k & Hmd).
      intros H. assert (Hst : st' = outcome_state o) by (destruct o; injection H as <-; reflexivity).
      subst st'. intros d0. rewrite Hmd, chunk_ids_app.
      destruct (String.eq_dec d0 d) as [->|Hne].
      * rewrite chunk_ids_absent by exact Habs. rewrite chunk_ids_new_records by exact Hk.
        apply chunk_ids_seq_NoDup.
      * rewrite chunk_ids_new_records_other by assumption. rewrite app_nil_r. apply Hd.
    + destruct (delete_document_spec st d Hwf) as (st'' & n & Hdel & Hwf' & _ & Hzip & _).
      rewrite Hdel. intros H. injection H as <-. intros d0.
      destruct Hwf' as (_ & _ & Hal & _). unfold aligned, Faiss.ntotal in Hal.
      rewrite <- (map_snd_zip _ _ Hal), Hzip.
      eapply sublist_NoDup; [apply Hd|apply chunk_ids_kept_sublist].
Qed.

Lemma chunk_ids_per_ingest_run_witness :
  match index_document 3 store_three draft_id two_chunk_text None None
          (Some [unit_vec; unit_vec]) with
  | Some o => exists recs, _metadata (outcome_state o) = _metadata store_three ++ recs /\
      chunk_ids draft_id recs = [VStr (chunk_id_of draft_id 0); VStr (chunk_id_of draft_id 1)]
  | None => False
  end /\
  match exec_op 3 (fresh Chunker.default_config) (ingest_two paper_id) with
  | Some s1 => chunk_ids_distinct s1 /\
      match exec_op 3 s1 (ingest notes_id) with
      | Some s2 => chunk_ids_distinct s2 /\
          match exec_op 3 s2 (OpDelete paper_id) with
          | Some s3 => chunk_ids_distinct s3 /\ length (_metadata s3) = 1%nat
          | None => False
          end
      | None => False
      end
  | None => False
  end.
Proof.
  assert (W3 : wf store_three) by (apply last_state_wf; apply fresh_wf).
  split.
  - destruct (index_document 3 store_three draft_id two_chunk_text None None
                (Some [unit_vec; unit_vec])) as [o|] eqn:E; [|vm_compute in E; discriminate].
    destruct (proj1 chunk_ids_per_ingest_run 3%nat store_three draft_id two_chunk_text
                None None (Some [unit_vec; unit_vec]) o W3 (conj eq_refl eq_refl) E)
      as (recs & Hm & Hc).
    exists recs. split; [exact Hm|].
    assert (H5 : length (_metadata (outcome_state o)) = 5%nat).
    { pose proof E as E'. vm_compute in E'. injection E' as <-. vm_compute. reflexivity. }
    assert (H3 : length (_metadata store_three) = 3%nat) by (vm_compute; reflexivity).
    apply (f_equal (@length _)) in Hm. rewrite length_app, H5, H3 in Hm.
    assert (H2 : length recs = 2%nat) by lia.
    rewrite Hc, H2. reflexivity.
  - destruct (exec_op 3 (fresh Chunker.default_config) (ingest_two paper_id)) as [s1|] eqn:E1;
      [|vm_compute in E1; discriminate].
    assert (W1 : wf s1) by exact (exec_op_wf _ _ _ _ (fresh_wf _) E1).
    assert (D1 : chunk_ids_distinct s1).
    { apply (proj2 chunk_ids_per_ingest_run 3%nat (fresh Chunker.default_config)
               (ingest_two paper_id) s1 (fresh_wf _)); [| |exact E1].
      - intros d0. constructor.
      - split; [split; reflexivity|constructor]. }
    pose proof E1 as E1'. vm_compute in E1'. injection E1' as Es1.
    split; [exact D1|].
    destruct (exec_op 3 s1 (ingest notes_id)) as [s2|] eqn:E2;
      [|rewrite <- Es1 in E2; vm_compute in E2; discriminate].
    assert (W2 : wf s2) by exact (exec_op_wf _ _ _ _ W1 E2).
    assert (D2 : chunk_ids_distinct s2).
    { apply (proj2 chunk_ids_per_ingest_run 3%nat s1 (ingest notes_id) s2 W1 D1); [|exact E2].
      split; [split; reflexivity|]. rewrite <- Es1. vm_compute. repeat constructor. }
    pose proof E2 as E2'. rewrite <- Es1 in E2'. vm_compute in E2'. injection E2' as Es2.
    split; [exact D2|].
    destruct (exec_op 3 s2 (OpDelete paper_id)) as [s3|] eqn:E3;
      [|rewrite <- Es2 in E3; vm_compute in E3; discriminate].
    split.
    + apply (proj2 chunk_ids_per_ingest_run 3%nat s2 (OpDelete paper_id) s3 W2 D2 I E3).
    + rewrite <- Es2 in E3. vm_compute in E3. injection E3 as <-. vm_compute. reflexivity.
Defined.

(** Claim C5 (counterexample): a grounding map whose entries all carry
    page 3 does not give page 1; the chunk at offsets 900..1000 of a
    1000-character text is put on page 3. *)
Lemma grounding_single_page_three :
  Grounding._find_grounding_for_chunk
    {| Chunker.c_text := "x"; Chunker.start_idx := 900; Chunker.end_idx := 1000 |}
    (Some [("e1", Some 3); ("e2", Some 3)]) 1000 = [("page", VInt 3)].
Proof. reflexivity. Qed.

(** Claim C5 (amended): the estimator returns page 1 when the grounding
    map is absent or empty, when it has no page entries, or when every
    page number it carries is 1. *)
Theorem grounding_default_page chunk g total_chars :
  (g = None \/ g = Some [] \/
   exists es, g = Some es /\ Forall (fun p => p = 1) (omap snd es)) ->
  Grounding._find_grounding_for_chunk chunk g total_chars = [("page", VInt 1)].
Proof.
  intros [->|[->|(es & -> & Hall)]]; [reflexivity|reflexivity|].
  destruct es as [|e es]; [reflexivity|].
  unfold Grounding._find_grounding_for_chunk. cbv beta iota.
  destruct (omap snd (e :: es)) as [|p ps] eqn:E; [reflexivity|].
  rewrite all_one_max by exact Hall. reflexivity.
Qed.

Lemma grounding_default_page_witness :
  Grounding._find_grounding_for_chunk
    {| Chunker.c_text := "x"; Chunker.start_idx := 900; Chunker.end_idx := 1000 |}
    (Some [("e1", Some 1); ("e2", None)]) 1000 = [("page", VInt 1)].
Proof.
  apply grounding_default_page. right. right.
  exists [("e1", Some 1); ("e2", None)]. split; [reflexivity|].
  simpl. repeat constructor.
Defined.

(** Claim C6 (counterexample): [paper_id] is ingested before
    [notes_id] and their chunks have the same embedding, so both results
    score 1; FAISS breaks the tie by position, the later one first, so
    the record inserted later comes first. *)
Lemma search_tied_scores :
  match search store_two unit_vec 2 0 with
  | Ret _ rs =>
      result_scores rs = [1; 1] /\
      map (fun r => get r "document_id") rs = [Some (VStr notes_id); Some (VStr paper_id)]
  | Raise _ => False
  end.
Proof. vm_compute. split; reflexivity. Qed.

(** Claim C6 (amended): an empty store gives [[]] without error; on a
    store of the service's shape, a positive [top_k] and a query of width
    [self.dimension] give no error; and any answer holds at most [top_k]
    results, each with a score, every score [>= threshold], the scores in
    non-increasing order.  The results are the records at the labels of
    FAISS rows ordered by descending score and, among equal scores, by
    descending label: of two tied records the one stored later comes
    first. *)
Theorem search_results_ranked st q top_k threshold :
  (Faiss.ntotal (_index st) = 0%nat -> search st q top_k threshold = Ret st []) /\
  (wf st -> 0 < top_k -> Faiss.has_dim dimension q = true ->
   exists rs, search st q top_k threshold = Ret st rs) /\
  (forall st' rs, search st q top_k threshold = Ret st' rs ->
     st' = st /\ (length rs <= Z.to_nat top_k)%nat /\
     length (result_scores rs) = length rs /\
     Forall (fun s => threshold <= s) (result_scores rs) /\
     Sorted Z.ge (result_scores rs) /\
     exists rows, Forall2 (result_of (_metadata st)) rows rs /\
       Forall (fun row => 0 <= snd row) rows /\
       StronglySorted (fun a b => fst b < fst a \/ (fst b = fst a /\ snd b < snd a)) rows).
Proof.
  split; [|split].
  - intros H0. unfold search. rewrite H0. reflexivity.
  - intros Hwf Hk Hq. destruct (Faiss.ntotal (_index st)) eqn:Hn.
    + exists []. unfold search. rewrite Hn. reflexivity.
    + destruct (search_nonempty_total st q top_k threshold Hwf ltac:(lia) Hk Hq)
        as (rows & rs & _ & _ & Hs). eauto.
  - intros st' rs H. pose proof (search_ret_state _ _ _ _ _ _ H) as ->.
    split; [reflexivity|]. unfold search in H.
    destruct (Faiss.ntotal (_index st) =? 0)%nat.
    + injection H as <-. simpl. split; [lia|]. split; [reflexivity|].
      split; [constructor|]. split; [constructor|].
      exists []. split; [constructor|]. split; constructor.
    + cbv zeta in H. destruct (Faiss.search (_index st) (normalize q) top_k) as [rows|] eqn:Hf;
        [|discriminate].
      destruct (collect (_metadata st) threshold rows) as [rs'|] eqn:Hc; [|discriminate].
      injection H as <-. apply collect_sound in Hc.
      destruct (faiss_kept_rows _ _ _ threshold _ Hf) as (top & Hk & Hl & Hlab & Hs).
      rewrite Hk in Hc.
      pose proof (result_scores_rows _ _ _ Hc) as Hsc.
      pose proof (Forall2_length _ _ _ Hc) as Hlen.
      rewrite Hsc, length_map, <- Hlen.
      split; [etransitivity; [apply List.filter_length_le|exact Hl]|].
      split; [reflexivity|]. split; [apply kept_scores_above|].
      split.
      { apply sorted_scores, ssorted_filter. eapply ssorted_impl; [|exact Hs].
        unfold ranked_before. intros a b Hab. lia. }
      exists (List.filter (kept_row threshold) top). split; [exact Hc|]. split.
      * apply List.Forall_forall. intros row Hrow. apply List.filter_In in Hrow as [Hrow _].
        rewrite List.Forall_forall in Hlab. apply Hlab. exact Hrow.
      * apply ssorted_filter. exact Hs.
Qed.

Lemma search_results_ranked_witness :
  search (fresh Chunker.default_config) unit_vec 2 0 = Ret (fresh Chunker.default_config) [] /\
  exists rs, search store_two unit_vec 2 0 = Ret store_two rs /\
    (length rs <= 2)%nat /\ Forall (fun s => 0 <= s) (result_scores rs) /\
    Sorted Z.ge (result_scores rs) /\
    exists rows, Forall2 (result_of (_metadata store_two)) rows rs /\
      StronglySorted (fun a b => fst b < fst a \/ (fst b = fst a /\ snd b < snd a)) rows.
Proof.
  split.
  - apply (search_results_ranked (fresh Chunker.default_config) unit_vec 2 0).
    reflexivity.
  - destruct (proj1 (proj2 (search_results_ranked store_two unit_vec 2 0)) store_two_wf
                ltac:(lia) ltac:(vm_compute; reflexivity)) as [rs E].
    exists rs. split; [exact E|].
    destruct (proj2 (proj2 (search_results_ranked store_two unit_vec 2 0)) _ _ E)
      as (_ & Hl & _ & Hge & Hs & rows & Hf & _ & Hss).
    split; [exact Hl|]. split; [exact Hge|]. split; [exact Hs|].
    exists rows. split; [exact Hf|exact Hss].
Defined.

(** Claim C7: on a store of the service's shape, [delete_document st d]
    returns without error; the (vector, record) pairs of the new store are
    those of the old one whose record's ["document_id"] is not [d], in
    their original order; the two collections stay aligned; and the
    count returned is the number of records of [d] removed. *)
Theorem delete_document_removes_exactly st d :
  wf st ->
  exists st' n, delete_document st d = Ret st' n /\
    zip (Faiss.ix_vecs (_index st')) (_metadata st') =
      List.filter (fun p => negb (of_document d (snd p)))
        (zip (Faiss.ix_vecs (_index st)) (_metadata st)) /\
    length (Faiss.ix_vecs (_index st')) = length (_metadata st') /\
    n = Z.of_nat (length (List.filter (of_document d) (_metadata st))).
Proof.
  intros Hwf. pose proof Hwf as (_ & _ & _ & Hdoc).
  destruct (delete_document_spec st d Hwf) as (st' & n & Hdel & Hwf' & _ & Hzip & Hn).
  exists st', n. split; [exact Hdel|].
  split; [rewrite Hzip; apply keep_pair_filter; exact Hdoc|].
  split; [destruct Hwf' as (_ & _ & Hal & _); exact Hal|exact Hn].
Qed.

Lemma delete_document_removes_exactly_witness :
  exists st' n, delete_document store_two paper_id = Ret st' n /\ n = 1.
Proof.
  destruct (delete_document_removes_exactly store_two paper_id store_two_wf)
    as (st' & n & E & _ & _ & Hn).
  exists st', n. split; [exact E|]. rewrite Hn. vm_compute. reflexivity.
Defined.

(** Claim C8 (counterexample): deleting an unknown (well-formed) id gives
    a zero count from the service, but the HTTP route answers 404. *)
Lemma delete_absent_route_not_found :
  delete_document (fresh Chunker.default_config) paper_id
    = Ret (fresh Chunker.default_config) 0 /\
  fst (Routers.delete_document_route (fresh Chunker.default_config) paper_id)
    = Routers.HttpError 404.
Proof. split; vm_compute; reflexivity. Qed.

(** Claim C8 (amended): when no record belongs to [d], the service's
    [delete_document] returns 0 and leaves the store as it was; the HTTP
    route turns that zero count into a 404 error for any valid id. *)
Theorem delete_absent_zero st d :
  wf st -> Forall (fun m => of_document d m = false) (_metadata st) ->
  delete_document st d = Ret st 0 /\
  (Routers.validate_document_id d = None ->
   Routers.delete_document_route st d = (Routers.HttpError 404, st)).
Proof.
  intros Hwf Habs.
  destruct (delete_keep_length st d Hwf) as (keep & Hkeep & Hlen).
  rewrite filter_none_of_document in Hlen by exact Habs. simpl in Hlen.
  assert (Hdel : delete_document st d = Ret st 0).
  { unfold delete_document. rewrite Hkeep. cbv zeta.
    replace (Z.of_nat (length (_metadata st)) - Z.of_nat (length keep) =? 0) with true
      by (symmetry; apply Z.eqb_eq; lia).
    reflexivity. }
  split; [exact Hdel|]. intros Hv.
  unfold Routers.delete_document_route. rewrite Hv, Hdel. reflexivity.
Qed.

Lemma delete_absent_zero_witness :
  delete_document (fresh Chunker.default_config) paper_id
    = Ret (fresh Chunker.default_config) 0 /\
  Routers.delete_document_route (fresh Chunker.default_config) paper_id
    = (Routers.HttpError 404, fresh Chunker.default_config).
Proof.
  destruct (delete_absent_zero (fresh Chunker.default_config) paper_id (fresh_wf _)
              (List.Forall_nil _)) as [Hdel Hroute].
  split; [exact Hdel|]. apply Hroute. vm_compute. reflexivity.
Defined.

(** Claim C9 (counterexample): a search result carries
    ["start_idx"], but the [EvidenceResult] built from it does not. *)
Lemma evidence_drops_start_idx :
  match search store_two unit_vec 2 0, Routers.search_evidence store_two unit_vec 2 0 with
  | Ret _ (r :: _), Routers.Ok (er :: _) =>
      get r "start_idx" = Some (VInt 0) /\
      get (Routers.er_metadata er) "start_idx" = None /\
      get (Routers.er_metadata er) "end_idx" = None
  | _, _ => False
  end.
Proof. vm_compute. split; [reflexivity|split; reflexivity]. Qed.

(** Claim C9 (amended): each [EvidenceResult] returned by the evidence
    search carries the result's raw score, and as metadata every other
    key of the record except ["document_id"], ["chunk_id"], ["text"],
    ["score"], ["start_idx"] and ["end_idx"]: the offsets are not
    exposed. *)
Theorem evidence_results_fields st q top_k threshold ers :
  Routers.search_evidence st q top_k threshold = Routers.Ok ers ->
  exists rs, search st q top_k threshold = Ret st rs /\
    Forall2 (fun r er =>
      get r "score" = Some (Routers.er_score er) /\
      Routers.er_metadata er =
        List.filter (fun kv => negb (existsb (String.eqb (fst kv)) Routers.excluded_keys)) r /\
      get (Routers.er_metadata er) "start_idx" = None /\
      get (Routers.er_metadata er) "end_idx" = None) rs ers.
Proof.
  unfold Routers.search_evidence.
  destruct (search st q top_k threshold) as [st' rs|] eqn:Es; [|discriminate].
  destruct (Routers.to_evidence_results rs) as [ers'|] eqn:Et; [|discriminate].
  intros H. injection H as <-. pose proof (search_ret_state _ _ _ _ _ _ Es) as ->.
  exists rs. split; [reflexivity|].
  eapply Forall2_impl; [exact (to_evidence_results_spec _ _ Et)|].
  intros r er [Hs Hm]. split; [exact Hs|]. split; [exact Hm|].
  rewrite Hm. split; apply get_filter_excluded; simpl; tauto.
Qed.

Lemma evidence_results_fields_witness :
  match Routers.search_evidence store_two unit_vec 2 0 with
  | Routers.Ok ers => exists rs, search store_two unit_vec 2 0 = Ret store_two rs /\
                        length rs = length ers
  | Routers.HttpError _ => False
  end.
Proof.
  destruct (Routers.search_evidence store_two unit_vec 2 0) as [ers|c] eqn:E;
    [|vm_compute in E; discriminate].
  destruct (evidence_results_fields _ _ _ _ _ E) as (rs & Hs & HF).
  exists rs. split; [exact Hs|]. eapply Forall2_length. exact HF.
Defined.

(** Claim C10: on a non-empty store of the service's shape with a query of
    width [self.dimension] and [top_k] above the number of stored vectors,
    FAISS answers with exactly [top_k - ntotal] rows labelled [-1] (given
    scores above [-FLT_MAX], as for L2-normalised vectors, whose inner
    products lie in [-1, 1]); the
    service skips every row labelled [-1] and returns without error, its
    results being, in order, one per remaining row with score
    [>= threshold]: the record at that row's label, a valid position of
    the metadata list, with ["score"] set to the row's score. *)
Theorem search_skips_padding st q top_k threshold :
  wf st -> (0 < Faiss.ntotal (_index st))%nat ->
  Z.of_nat (Faiss.ntotal (_index st)) < top_k -> Faiss.has_dim dimension q = true ->
  exists rows, Faiss.search (_index st) (normalize q) top_k = Some rows /\
    (Forall (fun v => Faiss.pad_score < Faiss.inner (normalize q) v)
       (Faiss.ix_vecs (_index st)) ->
     length (List.filter (fun row => snd row =? -1) rows) =
       (Z.to_nat top_k - Faiss.ntotal (_index st))%nat) /\
    exists rs, search st q top_k threshold = Ret st rs /\
      Forall2 (fun row r =>
          0 <= snd row /\ (Z.to_nat (snd row) < length (_metadata st))%nat /\
          exists m, _metadata st !! Z.to_nat (snd row) = Some m /\
                    r = set m "score" (VFloat (fst row)))
        (List.filter (fun row => negb (snd row =? -1) && (threshold <=? fst row)) rows) rs.
Proof.
  intros Hwf Hn Hk Hq.
  destruct (search_nonempty_total st q top_k threshold Hwf Hn ltac:(lia) Hq)
    as (rows & rs & Hrows & Hrs & Hs).
  exists rows. split; [exact Hrows|]. split.
  - intros Hsc. apply (faiss_search_fill _ _ _ _ Hrows); [lia|exact Hsc].
  - exists rs. split; [exact Hs|].
    apply collect_sound in Hrs.
    destruct (faiss_search_shape _ _ _ _ Hrows) as (top & Hr & _ & _ & _ & Hin & _).
    pose proof (imap_labels (normalize q) (Faiss.ix_vecs (_index st))) as Hlab.
    rewrite List.Forall_forall in Hin, Hlab.
    rewrite Hr, List.filter_app, filter_pads, app_nil_r in Hrs.
    rewrite Hr, List.filter_app, filter_replicate_false, app_nil_r by reflexivity.
    rewrite (List.filter_ext_in (fun row => negb (snd row =? -1) && (threshold <=? fst row))
               (kept_row threshold) top).
    2: { intros row Hrow. destruct (Hlab row (Hin row Hrow)) as [H0 _]. unfold kept_row.
         replace (snd row =? -1) with false by (symmetry; apply Z.eqb_neq; lia).
         replace (snd row <? 0) with false by (symmetry; apply Z.ltb_ge; lia).
         simpl. apply Z.leb_antisym. }
    assert (HF : Forall (fun row => 0 <= snd row /\
                   (Z.to_nat (snd row) < length (_metadata st))%nat)
                   (List.filter (kept_row threshold) top)).
    { apply List.Forall_forall. intros row Hrow. apply List.filter_In in Hrow as [Hrow _].
      destruct Hwf as (_ & _ & Hal & _). unfold aligned, Faiss.ntotal in Hal.
      rewrite <- Hal. exact (Hlab row (Hin row Hrow)). }
    eapply Forall2_impl; [exact (forall2_strengthen _ _ _ _ HF Hrs)|].
    intros row r [[H0 H1] Hres]. split; [exact H0|]. split; [exact H1|exact Hres].
Qed.

Lemma search_skips_padding_witness :
  exists rows, Faiss.search (_index store_two) (normalize unit_vec) 5 = Some rows /\
    length (List.filter (fun row => snd row =? -1) rows) = 3%nat /\
    exists rs, search store_two unit_vec 5 0 = Ret store_two rs /\ length rs = 2%nat.
Proof.
  destruct (search_skips_padding store_two unit_vec 5 0 store_two_wf
              ltac:(apply Nat.ltb_lt; vm_compute; reflexivity)
              ltac:(vm_compute; reflexivity) ltac:(vm_compute; reflexivity))
    as (rows & Hr & Hl & rs & Hs & HF).
  exists rows. split; [exact Hr|]. split.
  - rewrite Hl; [vm_compute; reflexivity|]. vm_compute. repeat constructor.
  - exists rs. split; [exact Hs|]. apply Forall2_length in HF. rewrite <- HF.
    pose proof Hr as Hr'. vm_compute in Hr'. injection Hr' as <-. vm_compute. reflexivity.
Defined.

End StoreClaims.

Module ExtraFacts.
Import Dict Service Invariants Listing Uploads Routers DictFacts DeleteFacts OpFacts ClaimSupport.

Lemma map_snd_filter_zip {A B} (f : B -> bool) (vs : list A) (ms : list B) :
  length vs = length ms ->
  map snd (List.filter (fun p => f (snd p)) (zip vs ms)) = List.filter f ms.
Proof.
  revert ms. induction vs as [|v vs IH]; intros [|m ms] Hl; simpl in *; try lia; [reflexivity|].
  destruct (f m); simpl; rewrite IH by lia; reflexivity.
Qed.

Lemma delete_metadata st d st' n :
  wf st -> delete_document st d = Ret st' n ->
  wf st' /\ _metadata st' = List.filter (fun m => negb (of_document d m)) (_metadata st).
Proof.
  intros Hwf Hdel.
  destruct (delete_document_spec st d Hwf) as (st1 & n1 & Hdel1 & Hwf1 & _ & Hzip & _).
  rewrite Hdel in Hdel1. injection Hdel1 as <- <-.
  split; [exact Hwf1|].
  pose proof Hwf as (_ & _ & Hal & Hdoc). pose proof Hwf1 as (_ & _ & Hal1 & _).
  unfold aligned, Faiss.ntotal in Hal, Hal1.
  rewrite <- (map_snd_zip _ _ Hal1), Hzip, keep_pair_filter by exact Hdoc.
  apply (map_snd_filter_zip (fun m => negb (of_document d m))). exact Hal.
Qed.

Lemma is_str_eq v d : is_str v d = true -> v = VStr d.
Proof. destruct v; simpl; try discriminate. intros H. apply String.eqb_eq in H. congruence. Qed.

Lemma get_chunks_go_drop d ms :
  Forall has_document_id ms ->
  get_chunks_go d (List.filter (fun m => negb (of_document d m)) ms) = Some [].
Proof.
  induction 1 as [|m ms Hm _ IH]; [reflexivity|].
  unfold has_document_id in Hm. cbn [List.filter]. unfold of_document at 1.
  destruct (get m "document_id") as [v|] eqn:Hg; [|contradiction].
  destruct (is_str v d) eqn:Hv; cbn [negb]; [exact IH|].
  cbn [get_chunks_go]. rewrite Hg, Hv. exact IH.
Qed.

Lemma get_chunks_go_other d d' ms :
  d' <> d -> Forall has_document_id ms ->
  get_chunks_go d' (List.filter (fun m => negb (of_document d m)) ms) = get_chunks_go d' ms.
Proof.
  intros Hne. induction 1 as [|m ms Hm _ IH]; [reflexivity|].
  unfold has_document_id in Hm. cbn [List.filter]. unfold of_document at 1.
  destruct (get m "document_id") as [v|] eqn:Hg; [|contradiction].
  destruct (is_str v d) eqn:Hv; cbn [negb].
  - apply is_str_eq in Hv. subst v. rewrite IH. cbn [get_chunks_go]. rewrite Hg.
    simpl. destruct (String.eqb_spec d d'); [congruence|reflexivity].
  - cbn [get_chunks_go]. rewrite Hg. rewrite IH. reflexivity.
Qed.

Lemma truthy_of_pdf f : ends_with_pdf f = true -> Py.truthy f = true.
Proof. destruct f; [discriminate|reflexivity]. Qed.

End ExtraFacts.

Module ExtraClaims.
Import Dict Service Invariants Listing Uploads Routers ClaimSupport ExtraFacts.

(** After [delete_document d] returns on a well-formed store,
    [get_chunks d] answers the empty list, and [get_chunks] of every other
    document answers as before the delete. *)
Lemma get_chunks_after_delete st d st' n :
  wf st -> delete_document st d = Ret st' n ->
  get_chunks st' d = Some [] /\
  (forall d', d' <> d -> get_chunks st' d' = get_chunks st d').
Proof.
  intros Hwf Hdel. destruct (delete_metadata st d st' n Hwf Hdel) as [_ Hmd].
  pose proof Hwf as (_ & _ & _ & Hdoc).
  unfold get_chunks. rewrite Hmd. split.
  - apply get_chunks_go_drop. exact Hdoc.
  - intros d' Hne. apply get_chunks_go_other; assumption.
Qed.

Lemma get_chunks_after_delete_witness :
  match delete_document Inputs.store_two Inputs.paper_id with
  | Ret st' n =>
      get_chunks st' Inputs.paper_id = Some [] /\
      (forall d', d' <> Inputs.paper_id -> get_chunks st' d' = get_chunks Inputs.store_two d')
  | Raise _ => False
  end.
Proof.
  destruct (delete_document Inputs.store_two Inputs.paper_id) as [st' n|st'] eqn:E.
  - exact (get_chunks_after_delete _ _ _ _ store_two_wf E).
  - vm_compute in E. discriminate.
Defined.

(** A successful [DELETE /documents/{d}] also drops [d] from the status
    map: a later [GET /documents/{d}/status] answers 404, and the status
    of every other document is untouched. *)
Lemma delete_route_forgets_status st status d n st' s' :
  delete_document_route_status st status d = (Ok n, st', s') ->
  get_document_status s' d = HttpError 404 /\
  (forall d', d' <> d -> s' !! d' = status !! d').
Proof.
  unfold delete_document_route_status, delete_document_route.
  destruct (validate_document_id d) eqn:Hv; [discriminate|].
  destruct (Service.delete_document st d) as [st1 k|st1]; [|discriminate].
  destruct (k =? 0); [discriminate|].
  intros H. injection H as <- <- <-. split.
  - unfold get_document_status. rewrite Hv, lookup_delete_eq. reflexivity.
  - intros d' Hne. apply lookup_delete_ne. congruence.
Qed.

Lemma delete_route_forgets_status_witness :
  match delete_document_route_status Inputs.store_two
          {[Inputs.paper_id := indexed_entry 1]} Inputs.paper_id with
  | (Ok n, st', s') =>
      get_document_status s' Inputs.paper_id = HttpError 404 /\
      (forall d', d' <> Inputs.paper_id -> s' !! d' = ({[Inputs.paper_id := indexed_entry 1]} : status_map) !! d')
  | _ => False
  end.
Proof.
  destruct (delete_document_route_status Inputs.store_two
              {[Inputs.paper_id := indexed_entry 1]} Inputs.paper_id)
    as [[[n|c] st'] s'] eqn:E.
  - exact (delete_route_forgets_status _ _ _ _ _ _ E).
  - vm_compute in E. discriminate.
Defined.

(** A PDF larger than [MAX_FILE_SIZE] is refused by both upload routes
    with status 500, not 413: the 413 raised inside the [try] block is
    caught by the generic handler.  Neither the store nor the status map
    changes, and no background task is scheduled. *)
Lemma upload_oversize_is_500 fuel st status f len h parsed es ts :
  ends_with_pdf f = true -> MAX_FILE_SIZE < len ->
  upload_and_index_document status f len h = (HttpError 500, status, false) /\
  upload_and_index_document_sync fuel st status f len h parsed es ts =
    Some (HttpError 500, st, status).
Proof.
  intros Hpdf Hbig.
  unfold upload_and_index_document, upload_and_index_document_sync,
    upload_body, upload_sync_body.
  rewrite (truthy_of_pdf f Hpdf), Hpdf. cbn [andb negb].
  assert (Hlt : (MAX_FILE_SIZE <? len) = true) by (apply Z.ltb_lt; exact Hbig).
  rewrite Hlt. split; reflexivity.
Qed.

Lemma upload_oversize_is_500_witness :
  (ends_with_pdf "paper.pdf" = true /\ MAX_FILE_SIZE < 60000000) /\
  upload_and_index_document ∅ "paper.pdf" 60000000 "0123456789ab" = (HttpError 500, ∅, false) /\
  upload_and_index_document_sync 1 Inputs.store_two ∅ "paper.pdf" 60000000 "0123456789ab" None None "t" =
    Some (HttpError 500, Inputs.store_two, ∅).
Proof.
  assert (H1 : ends_with_pdf "paper.pdf" = true) by reflexivity.
  assert (H2 : MAX_FILE_SIZE < 60000000) by (unfold MAX_FILE_SIZE; lia).
  split; [split; assumption|].
  exact (upload_oversize_is_500 1 Inputs.store_two ∅ "paper.pdf" 60000000 "0123456789ab"
           None None "t" H1 H2).
Defined.

End ExtraClaims.

Module UploadFacts.
Import Dict Service Invariants Listing Uploads Routers DictFacts IndexFacts ExtraFacts.

Lemma list_ascii_of_string_app s1 s2 :
  list_ascii_of_string (s1 +:+ s2) = list_ascii_of_string s1 ++ list_ascii_of_string s2.
Proof. induction s1 as [|c s1 IH]; simpl; [reflexivity|]. rewrite IH. reflexivity. Qed.

Lemma length_list_ascii_of_string s : length (list_ascii_of_string s) = String.length s.
Proof. induction s as [|c s IH]; simpl; [reflexivity|]. rewrite IH. reflexivity. Qed.

Lemma drop_map {A B} (f : A -> B) n l : drop n (map f l) = map f (drop n l).
Proof. revert n. induction l as [|x l IH]; intros [|n]; simpl; auto. Qed.

Lemma lower_char_dot c : lower_char c = "."%char -> c = "."%char.
Proof.
  unfold lower_char. destruct ((65 <=? nat_of_ascii c)%nat && (nat_of_ascii c <=? 90)%nat) eqn:E;
    [|exact id].
  intros H. exfalso. apply andb_true_iff in E as [E1 E2].
  apply Nat.leb_le in E1, E2.
  apply (f_equal nat_of_ascii) in H. rewrite nat_ascii_embedding in H by lia.
  change (nat_of_ascii "."%char) with 46%nat in H. lia.
Qed.

Lemma lower_char_not_dot c x : lower_char c = x -> x <> "."%char -> Ascii.eqb c "." = false.
Proof.
  intros H Hx. destruct (Ascii.eqb_spec c "."); [|reflexivity].
  subst c. exfalso. apply Hx. rewrite <- H. reflexivity.
Qed.

Lemma ends_with_pdf_split f :
  ends_with_pdf f = true ->
  exists l0 c2 c3 c4, list_ascii_of_string f = l0 ++ ["."%char; c2; c3; c4] /\
    Ascii.eqb c2 "." = false /\ Ascii.eqb c3 "." = false /\ Ascii.eqb c4 "." = false.
Proof.
  unfold ends_with_pdf. set (l := list_ascii_of_string f).
  intros H. apply String.eqb_eq in H.
  apply (f_equal list_ascii_of_string) in H.
  rewrite list_ascii_of_string_of_list_ascii in H.
  rewrite length_map, drop_map in H.
  rewrite <- (take_drop (length l - 4) l).
  destruct (drop (length l - 4) l) as [|c1 [|c2 [|c3 [|c4 [|c5 r]]]]] eqn:Hd;
    simpl in H; try discriminate.
  injection H as H1 H2 H3 H4.
  exists (take (length l - 4) l), c2, c3, c4.
  apply lower_char_dot in H1. subst c1.
  split; [reflexivity|].
  split; [eapply lower_char_not_dot; [exact H2|discriminate]|].
  split; [eapply lower_char_not_dot; [exact H3|discriminate]|].
  eapply lower_char_not_dot; [exact H4|discriminate].
Qed.

Lemma before_last_dot_app l1 l2 p :
  before_last_dot l2 = Some p -> before_last_dot (l1 ++ l2) = Some (l1 ++ p).
Proof. intros H. induction l1 as [|c l1 IH]; simpl; [exact H|]. rewrite IH. reflexivity. Qed.

Lemma stem_pdf f :
  ends_with_pdf f = true ->
  exists l0, list_ascii_of_string (stem f) = l0 /\ String.length f = (length l0 + 4)%nat.
Proof.
  intros H. destruct (ends_with_pdf_split f H) as (l0 & c2 & c3 & c4 & Hl & E2 & E3 & E4).
  exists l0. split.
  - unfold stem. rewrite Hl.
    rewrite (before_last_dot_app l0 ["."%char; c2; c3; c4] []).
    + simpl. rewrite app_nil_r. apply list_ascii_of_string_of_list_ascii.
    + simpl. rewrite E4, E3, E2. reflexivity.
  - rewrite <- length_list_ascii_of_string, Hl, length_app. simpl. lia.
Qed.

Lemma sanitize_id_chars l :
  forallb is_id_char (map (fun c => if is_id_char c then c else "_"%char) l) = true.
Proof.
  induction l as [|c l IH]; simpl; [reflexivity|].
  rewrite IH, andb_true_r. destruct (is_id_char c) eqn:E; [exact E|reflexivity].
Qed.

(** The characters of an upload id: the sanitised stem, ["_"], the hash. *)
Lemma upload_id_chars f h :
  ends_with_pdf f = true ->
  exists S, list_ascii_of_string (upload_document_id f h) =
              S ++ "_"%char :: list_ascii_of_string h /\
    forallb is_id_char S = true /\ String.length f = (length S + 4)%nat.
Proof.
  intros H. destruct (stem_pdf f H) as (l0 & Hs & Hlen).
  exists (map (fun c => if is_id_char c then c else "_"%char) l0).
  unfold upload_document_id, sanitize.
  rewrite !list_ascii_of_string_app, list_ascii_of_string_of_list_ascii, Hs.
  split; [reflexivity|]. split; [apply sanitize_id_chars|]. rewrite length_map. exact Hlen.
Qed.

Lemma hex_not_newline c : is_hex_lower c = true -> Ascii.eqb c (ascii_of_nat 10) = false.
Proof.
  intros H. destruct (Ascii.eqb_spec c (ascii_of_nat 10)); [|reflexivity].
  subst c. discriminate.
Qed.

Lemma upload_id_valid_iff f h :
  ends_with_pdf f = true -> String.length h = 12%nat ->
  forallb is_hex_lower (list_ascii_of_string h) = true ->
  (validate_document_id (upload_document_id f h) = None <->
   (5 <= String.length f <= 247)%nat).
Proof.
  intros Hpdf Hh Hhex.
  destruct (upload_id_chars f h Hpdf) as (S & Hl & HS & Hf).
  set (H := list_ascii_of_string h) in *.
  assert (HH : length H = 12%nat) by (unfold H; rewrite length_list_ascii_of_string; exact Hh).
  assert (Hn : String.length (upload_document_id f h) = (length S + 13)%nat).
  { rewrite <- length_list_ascii_of_string, Hl, length_app. simpl. lia. }
  assert (Hm : matches_id_pattern (upload_document_id f h) = (14 <=? length S + 13)%nat).
  { unfold matches_id_pattern. rewrite Hl.
    destruct (last H) as [c|] eqn:Hlast;
      [|apply last_None in Hlast; rewrite Hlast in HH; discriminate].
    replace (S ++ "_"%char :: H) with ((S ++ ["_"%char]) ++ H) by (rewrite <- app_assoc; reflexivity).
    rewrite last_app, Hlast.
    assert (Hc : is_hex_lower c = true).
    { apply last_Some_elem_of in Hlast. apply list_elem_of_In in Hlast.
      rewrite forallb_forall in Hhex. apply Hhex. exact Hlast. }
    rewrite hex_not_newline by exact Hc.
    rewrite length_app. simpl length. rewrite HH.
    rewrite drop_app_length' by (rewrite length_app; simpl; lia).
    rewrite Hhex, andb_true_r.
    rewrite <- app_assoc. simpl app.
    rewrite length_app; simpl length. rewrite list_lookup_middle by lia. simpl.
    rewrite take_app_length' by lia. rewrite HS, !andb_true_r.
    replace (length S + 1 + 12)%nat with (length S + 13)%nat by lia. reflexivity. }
  unfold validate_document_id, Py.len. rewrite Hm, Hn.
  destruct (Z.ltb_spec 256 (Z.of_nat (length S + 13))); destruct (Nat.leb_spec 14 (length S + 13));
    simpl; split; intros; try discriminate; try reflexivity; lia.
Qed.

Lemma forall_imap {A B} (P : B -> Prop) (f : nat -> A -> B) l :
  (forall j x, P (f j x)) -> Forall P (imap f l).
Proof.
  revert f. induction l as [|x l IH]; intros f Hf; [constructor|].
  rewrite imap_cons. constructor; [apply Hf|]. apply IH. intros j y. apply Hf.
Qed.

Lemma new_records_page_one d md tc i pairs :
  get (default [] md) "page" = None ->
  Forall (fun r => get r "page" = Some (VInt 1)) (new_records d md None tc i pairs).
Proof.
  intros Hmd. unfold new_records. apply forall_imap. intros j p.
  unfold make_record. rewrite get_merge_absent by exact Hmd. reflexivity.
Qed.

Lemma upload_metadata_page f ts p :
  get (p_metadata p) "page" = None -> get (upload_metadata f ts p) "page" = None.
Proof. intros H. unfold upload_metadata. rewrite get_merge_absent by exact H. reflexivity. Qed.

Lemma index_upload_page_one fuel st d f ts p es o :
  wf st -> get (p_metadata p) "page" = None ->
  index_document fuel st d (p_content p) (Some (upload_metadata f ts p)) None es = Some o ->
  exists recs, _metadata (outcome_state o) = _metadata st ++ recs /\
    Forall (fun r => get r "page" = Some (VInt 1)) recs.
Proof.
  intros Hwf Hp Hi.
  destruct (index_document_spec _ _ _ _ _ _ _ _ Hwf Hi) as (_ & pairs & k & Hmd).
  eexists. split; [exact Hmd|]. apply new_records_page_one. simpl.
  apply upload_metadata_page. exact Hp.
Qed.

End UploadFacts.

Module UploadClaims.
Import Dict Service Invariants Listing Uploads Routers ClaimSupport ExtraFacts UploadFacts MoreInputs.

(** For a PDF filename [f] and a 12-digit lower-case hex hash [h], the
    document id that the upload routes build passes
    [validate_document_id] exactly when [f] has 5 to 247 characters. *)
Lemma upload_id_validation f h :
  ends_with_pdf f = true -> String.length h = 12%nat ->
  forallb is_hex_lower (list_ascii_of_string h) = true ->
  (validate_document_id (upload_document_id f h) = None <->
   (5 <= String.length f <= 247)%nat).
Proof. exact (upload_id_valid_iff f h). Qed.

Lemma upload_id_validation_witness :
  (ends_with_pdf ".pdf" = true /\ String.length "0123456789ab" = 12%nat /\
   forallb is_hex_lower (list_ascii_of_string "0123456789ab") = true) /\
  (validate_document_id (upload_document_id ".pdf" "0123456789ab") = None <->
   (5 <= String.length ".pdf" <= 247)%nat).
Proof.
  assert (H1 : ends_with_pdf ".pdf" = true) by reflexivity.
  assert (H2 : String.length "0123456789ab" = 12%nat) by reflexivity.
  assert (H3 : forallb is_hex_lower (list_ascii_of_string "0123456789ab") = true)
    by reflexivity.
  split; [split; [exact H1|split; assumption]|].
  exact (upload_id_validation ".pdf" "0123456789ab" H1 H2 H3).
Defined.

(** A first upload of a PDF queues it and schedules the background task;
    polling [GET /documents/{id}/status] with the returned id then reports
    ["processing"] when the filename has 5 to 247 characters, and is
    refused with 400 otherwise. *)
Lemma upload_then_status status f len h :
  ends_with_pdf f = true -> len <= MAX_FILE_SIZE -> String.length h = 12%nat ->
  forallb is_hex_lower (list_ascii_of_string h) = true ->
  status !! upload_document_id f h = None ->
  exists s',
    upload_and_index_document status f len h =
      (Ok {| ur_document_id := upload_document_id f h; ur_status := "processing";
             ur_message := "Document queued for processing" |}, s', true) /\
    get_document_status s' (upload_document_id f h) =
      if (5 <=? String.length f)%nat && (String.length f <=? 247)%nat
      then Ok {| sr_document_id := upload_document_id f h; sr_status := VStr "processing";
                 sr_message := Some (VStr "Queued for processing"); sr_chunk_count := None |}
      else HttpError 400.
Proof.
  intros Hpdf Hlen Hh Hhex Hnone.
  pose proof (upload_id_valid_iff f h Hpdf Hh Hhex) as Hiff.
  unfold upload_and_index_document, upload_body.
  rewrite (truthy_of_pdf f Hpdf), Hpdf. cbn [andb negb].
  assert (Hge : (MAX_FILE_SIZE <? len) = false) by (apply Z.ltb_ge; exact Hlen).
  rewrite Hge, Hnone. eexists. split; [reflexivity|].
  unfold get_document_status.
  destruct (validate_document_id (upload_document_id f h)) as [c|] eqn:Hv.
  - assert (Hc : c = 400).
    { revert Hv. unfold validate_document_id.
      destruct (256 <? Py.len (upload_document_id f h)); [congruence|].
      destruct (negb (matches_id_pattern (upload_document_id f h))); congruence. }
    subst c. destruct (Nat.leb_spec 5 (String.length f)), (Nat.leb_spec (String.length f) 247);
      simpl; try reflexivity.
    exfalso. assert (Hn : @Some Z 400 = None) by (apply Hiff; lia). discriminate.
  - assert (Hr : (5 <= String.length f <= 247)%nat) by (apply Hiff; reflexivity).
    destruct (Nat.leb_spec 5 (String.length f)), (Nat.leb_spec (String.length f) 247);
      try lia. simpl. rewrite lookup_insert_eq. reflexivity.
Qed.

Lemma upload_then_status_witness :
  (ends_with_pdf "paper.pdf" = true /\ 100 <= MAX_FILE_SIZE /\
   String.length "0123456789ab" = 12%nat /\
   forallb is_hex_lower (list_ascii_of_string "0123456789ab") = true /\
   (∅ : status_map) !! upload_document_id "paper.pdf" "0123456789ab" = None) /\
  exists s',
    upload_and_index_document ∅ "paper.pdf" 100 "0123456789ab" =
      (Ok {| ur_document_id := upload_document_id "paper.pdf" "0123456789ab";
             ur_status := "processing";
             ur_message := "Document queued for processing" |}, s', true) /\
    get_document_status s' (upload_document_id "paper.pdf" "0123456789ab") =
      if (5 <=? String.length "paper.pdf")%nat && (String.length "paper.pdf" <=? 247)%nat
      then Ok {| sr_document_id := upload_document_id "paper.pdf" "0123456789ab";
                 sr_status := VStr "processing";
                 sr_message := Some (VStr "Queued for processing"); sr_chunk_count := None |}
      else HttpError 400.
Proof.
  assert (H1 : ends_with_pdf "paper.pdf" = true) by reflexivity.
  assert (H2 : 100 <= MAX_FILE_SIZE) by (unfold MAX_FILE_SIZE; lia).
  assert (H3 : String.length "0123456789ab" = 12%nat) by reflexivity.
  assert (H4 : forallb is_hex_lower (list_ascii_of_string "0123456789ab") = true)
    by reflexivity.
  assert (H5 : (∅ : status_map) !! upload_document_id "paper.pdf" "0123456789ab" = None)
    by apply lookup_empty.
  split; [repeat split; assumption|].
  exact (upload_then_status ∅ "paper.pdf" 100 "0123456789ab" H1 H2 H3 H4 H5).
Defined.

(** When the background task of an upload finishes, the status of the
    document is ["indexed"] with the chunk count returned by
    [index_document], or ["error"] with the exception text, and no other
    document's status changed.  A second upload of the same file is then
    answered "already indexed" without scheduling a task, or is queued
    again after an error. *)
Lemma background_then_reupload fuel st status f len h d parsed es ts err st' s2 :
  ends_with_pdf f = true -> len <= MAX_FILE_SIZE -> upload_document_id f h = d ->
  process_document_in_background fuel st status d f parsed es ts err = Some (st', s2) ->
  (forall d', d' <> d -> s2 !! d' = status !! d') /\
  ((exists p n, parsed = Some p /\
      index_document fuel st d (p_content p) (Some (upload_metadata f ts p)) None es
        = Some (Ret st' n) /\
      s2 !! d = Some (indexed_entry n) /\
      upload_and_index_document s2 f len h =
        (Ok {| ur_document_id := d; ur_status := "indexed";
               ur_message := "Document is already indexed" |}, s2, false)) \/
   (s2 !! d = Some (error_entry err) /\
      upload_and_index_document s2 f len h =
        (Ok {| ur_document_id := d; ur_status := "processing";
               ur_message := "Document queued for processing" |},
         <[d := processing_entry "Queued for processing"]> s2, true))).
Proof.
  intros Hpdf Hlen Hd Hrun.
  assert (Hup : forall s, upload_and_index_document s f len h =
    match s !! d with
    | None =>
        (Ok {| ur_document_id := d; ur_status := "processing";
               ur_message := "Document queued for processing" |},
         <[d := processing_entry "Queued for processing"]> s, true)
    | Some current =>
        match get current "status" with
        | None => (HttpError 500, s, false)
        | Some v =>
            if is_str v "processing" then
              (Ok {| ur_document_id := d; ur_status := "processing";
                     ur_message := "Document is already being processed" |}, s, false)
            else if is_str v "indexed" then
              (Ok {| ur_document_id := d; ur_status := "indexed";
                     ur_message := "Document is already indexed" |}, s, false)
            else
              (Ok {| ur_document_id := d; ur_status := "processing";
                     ur_message := "Document queued for processing" |},
               <[d := processing_entry "Queued for processing"]> s, true)
        end
    end).
  { intros s. unfold upload_and_index_document, upload_body.
    rewrite (truthy_of_pdf f Hpdf), Hpdf. cbn [andb negb].
    assert (Hge : (MAX_FILE_SIZE <? len) = false) by (apply Z.ltb_ge; exact Hlen).
    rewrite Hge, Hd. destruct (s !! d) as [current|]; [|reflexivity].
    destruct (get current "status") as [v|]; [|reflexivity].
    destruct (is_str v "processing"); [reflexivity|].
    destruct (is_str v "indexed"); reflexivity. }
  revert Hrun. unfold process_document_in_background.
  destruct parsed as [p|].
  - destruct (index_document fuel st d (p_content p) (Some (upload_metadata f ts p)) None es)
      as [[st1 n|st1]|] eqn:Hi; intros H; [| |discriminate]; injection H as <- <-;
      (split; [intros d' Hne; rewrite !lookup_insert_ne by congruence; reflexivity|]).
    + left. exists p, n. split; [reflexivity|]. split; [exact Hi|].
      split; [apply lookup_insert_eq|]. rewrite Hup, lookup_insert_eq. reflexivity.
    + right. split; [apply lookup_insert_eq|]. rewrite Hup, lookup_insert_eq. reflexivity.
  - intros H. injection H as <- <-.
    split; [intros d' Hne; rewrite !lookup_insert_ne by congruence; reflexivity|].
    right. split; [apply lookup_insert_eq|]. rewrite Hup, lookup_insert_eq. reflexivity.
Qed.

Lemma background_then_reupload_witness :
  match process_document_in_background 1 (fresh Chunker.default_config) ∅
          (upload_document_id "paper.pdf" "0123456789ab") "paper.pdf"
          (Some hello_pdf) (Some [Inputs.unit_vec]) "t" "boom" with
  | Some (st', s2) =>
      (forall d', d' <> upload_document_id "paper.pdf" "0123456789ab" ->
         s2 !! d' = (∅ : status_map) !! d') /\
      ((exists p n, Some hello_pdf = Some p /\
          index_document 1 (fresh Chunker.default_config)
            (upload_document_id "paper.pdf" "0123456789ab") (p_content p)
            (Some (upload_metadata "paper.pdf" "t" p)) None (Some [Inputs.unit_vec])
            = Some (Ret st' n) /\
          s2 !! upload_document_id "paper.pdf" "0123456789ab" = Some (indexed_entry n) /\
          upload_and_index_document s2 "paper.pdf" 100 "0123456789ab" =
            (Ok {| ur_document_id := upload_document_id "paper.pdf" "0123456789ab";
                   ur_status := "indexed";
                   ur_message := "Document is already indexed" |}, s2, false)) \/
       (s2 !! upload_document_id "paper.pdf" "0123456789ab" = Some (error_entry "boom") /\
          upload_and_index_document s2 "paper.pdf" 100 "0123456789ab" =
            (Ok {| ur_document_id := upload_document_id "paper.pdf" "0123456789ab";
                   ur_status := "processing";
                   ur_message := "Document queued for processing" |},
             <[upload_document_id "paper.pdf" "0123456789ab" :=
                 processing_entry "Queued for processing"]> s2, true)))
  | None => False
  end.
Proof.
  destruct (process_document_in_background 1 (fresh Chunker.default_config) ∅
              (upload_document_id "paper.pdf" "0123456789ab") "paper.pdf"
              (Some hello_pdf) (Some [Inputs.unit_vec]) "t" "boom") as [[st' s2]|] eqn:E.
  - apply (background_then_reupload 1 (fresh Chunker.default_config) ∅ "paper.pdf" 100
             "0123456789ab" _ (Some hello_pdf) (Some [Inputs.unit_vec]) "t" "boom" st' s2);
      [reflexivity|unfold MAX_FILE_SIZE; lia|reflexivity|exact E].
  - vm_compute in E. discriminate.
Defined.

(** Every record that an upload adds to the store, through the
    background task or the synchronous route, carries ["page"] 1 unless
    the parser's metadata sets ["page"]: both routes index without a
    grounding map. *)
Lemma uploaded_records_page_one fuel st status d f len h parsed es ts err :
  wf st -> (forall p, parsed = Some p -> get (p_metadata p) "page" = None) ->
  (forall st' s',
     process_document_in_background fuel st status d f parsed es ts err = Some (st', s') ->
     exists recs, _metadata st' = _metadata st ++ recs /\
       Forall (fun r => get r "page" = Some (VInt 1)) recs) /\
  (forall r st' s',
     upload_and_index_document_sync fuel st status f len h parsed es ts = Some (r, st', s') ->
     exists recs, _metadata st' = _metadata st ++ recs /\
       Forall (fun r => get r "page" = Some (VInt 1)) recs).
Proof.
  intros Hwf Hpage.
  assert (Hnone : exists recs : list pydict, _metadata st = _metadata st ++ recs /\
            Forall (fun r => get r "page" = Some (VInt 1)) recs)
    by (exists []; rewrite app_nil_r; split; [reflexivity|constructor]).
  split.
  - intros st' s'. unfold process_document_in_background. destruct parsed as [p|].
    + destruct (index_document fuel st d (p_content p) (Some (upload_metadata f ts p)) None es)
        as [o|] eqn:Hi; [|discriminate].
      destruct (index_upload_page_one fuel st d f ts p es o Hwf (Hpage p eq_refl) Hi)
        as (recs & Hmd & Hall).
      destruct o as [st1 n|st1]; intros H; injection H as <- _; exists recs; auto.
    + intros H. injection H as <- _. exact Hnone.
  - intros r st' s'. unfold upload_and_index_document_sync.
    destruct (negb (Py.truthy f && ends_with_pdf f)).
    { intros H. injection H as _ <- _. exact Hnone. }
    assert (Hbody : forall r1 st1 s1,
      upload_sync_body fuel st status f len h parsed es ts = Some (r1, st1, s1) ->
      exists recs, _metadata st1 = _metadata st ++ recs /\
        Forall (fun r => get r "page" = Some (VInt 1)) recs).
    { intros r1 st1 s1. unfold upload_sync_body.
      destruct (MAX_FILE_SIZE <? len).
      { intros H. injection H as _ <- _. exact Hnone. }
      destruct parsed as [p|]; [|intros H; injection H as _ <- _; exact Hnone].
      destruct (index_document fuel st (upload_document_id f h) (p_content p)
                  (Some (upload_metadata f ts p)) None es) as [o|] eqn:Hi; [|discriminate].
      destruct (index_upload_page_one fuel st _ f ts p es o Hwf (Hpage p eq_refl) Hi)
        as (recs & Hmd & Hall).
      destruct o as [st2 n|st2]; intros H; injection H as _ <- _; exists recs; auto. }
    destruct (upload_sync_body fuel st status f len h parsed es ts) as [[[r1 st1] s1]|] eqn:Hb;
      [|discriminate].
    specialize (Hbody r1 st1 s1 eq_refl).
    destruct r1; intros H; injection H as _ <- _; exact Hbody.
Qed.

Lemma uploaded_records_page_one_witness :
  (wf (fresh Chunker.default_config) /\
   (forall p, Some hello_pdf = Some p -> get (p_metadata p) "page" = None)) /\
  match upload_and_index_document_sync 1 (fresh Chunker.default_config) ∅ "paper.pdf" 100
          "0123456789ab" (Some hello_pdf) (Some [Inputs.unit_vec]) "t" with
  | Some (r, st', s') =>
      exists recs, _metadata st' = _metadata (fresh Chunker.default_config) ++ recs /\
        Forall (fun r => get r "page" = Some (VInt 1)) recs
  | None => False
  end.
Proof.
  assert (H2 : forall p, Some hello_pdf = Some p -> get (p_metadata p) "page" = None)
    by (intros p Hp; injection Hp as <-; reflexivity).
  split; [split; [apply fresh_wf|exact H2]|].
  destruct (upload_and_index_document_sync 1 (fresh Chunker.default_config) ∅ "paper.pdf" 100
              "0123456789ab" (Some hello_pdf) (Some [Inputs.unit_vec]) "t")
    as [[[r st'] s']|] eqn:E.
  - exact (proj2 (uploaded_records_page_one 1 (fresh Chunker.default_config) ∅
             (upload_document_id "paper.pdf" "0123456789ab") "paper.pdf" 100 "0123456789ab"
             (Some hello_pdf) (Some [Inputs.unit_vec]) "t" "boom" (fresh_wf _) H2) r st' s' E).
  - vm_compute in E. discriminate.
Defined.

End UploadClaims.

Module ListingFacts.
Import Dict Service Invariants Listing DictFacts ExtraFacts ListingInvariants.

Lemma py_eq_str d v : py_eq (VStr d) v = is_str v d.
Proof. destruct v; simpl; try reflexivity. apply String.eqb_sym. Qed.

Lemma py_eq_refl k : py_eq k k = true.
Proof. destruct k; simpl; try apply Z.eqb_refl; try apply String.eqb_refl; reflexivity. Qed.

Lemma py_eq_to_str k d : py_eq k (VStr d) = true -> k = VStr d.
Proof.
  destruct k; simpl; try discriminate. intros H. apply String.eqb_eq in H. congruence.
Qed.

Lemma update_doc_absent k info docs :
  lookup_doc k docs = None -> update_doc k info docs = docs ++ [(k, info)].
Proof.
  induction docs as [|[k' i'] docs IH]; simpl; [reflexivity|].
  destruct (py_eq k k'); [discriminate|]. intros H. rewrite IH by exact H. reflexivity.
Qed.

Lemma lookup_doc_appended k info docs :
  lookup_doc k docs = None -> lookup_doc k (docs ++ [(k, info)]) = Some info.
Proof.
  induction docs as [|[k' i'] docs IH]; simpl.
  - rewrite py_eq_refl. reflexivity.
  - destruct (py_eq k k'); [discriminate|]. exact IH.
Qed.

Lemma update_doc_appended k x y docs :
  lookup_doc k docs = None -> update_doc k x (docs ++ [(k, y)]) = docs ++ [(k, x)].
Proof.
  induction docs as [|[k' i'] docs IH]; simpl.
  - rewrite py_eq_refl. reflexivity.
  - destruct (py_eq k k'); [discriminate|]. intros H. rewrite IH by exact H. reflexivity.
Qed.

Lemma lookup_doc_in k docs info :
  lookup_doc k docs = Some info -> exists k', In (k', info) docs.
Proof.
  induction docs as [|[k' i'] docs IH]; simpl; [discriminate|].
  destruct (py_eq k k'); intros H.
  - injection H as <-. exists k'. left. reflexivity.
  - destruct (IH H) as [k'' Hin]. exists k''. right. exact Hin.
Qed.

Lemma lookup_doc_str d docs :
  lookup_doc (VStr d) docs = option_map snd (head (entries_of d docs)).
Proof.
  unfold entries_of. induction docs as [|[k' i'] docs IH]; simpl; [reflexivity|].
  rewrite py_eq_str. destruct (is_str k' d); [reflexivity|exact IH].
Qed.

Lemma docs_inv_update k info info' docs :
  docs_inv docs -> lookup_doc k docs = Some info ->
  get info' "document_id" = get info "document_id" ->
  (exists n, get info' "chunk_count" = Some (VInt n)) ->
  docs_inv (update_doc k info' docs).
Proof.
  unfold docs_inv. intros Hinv. revert info.
  induction Hinv as [|[k' i'] docs [Hd Hc] Hinv IH]; simpl; intros info; [discriminate|].
  destruct (py_eq k k'); intros Hl Hdoc Hcc.
  - injection Hl as <-. constructor; [|exact Hinv]. simpl in Hd |- *. split; [congruence|exact Hcc].
  - constructor; [split; assumption|]. eapply IH; eassumption.
Qed.

Lemma count_sum_update k info info' docs :
  lookup_doc k docs = Some info ->
  count_sum (update_doc k info' docs) = count_sum docs - chunk_count info + chunk_count info'.
Proof.
  unfold count_sum. induction docs as [|[k' i'] docs IH]; simpl; [discriminate|].
  destruct (py_eq k k'); intros H.
  - injection H as <-. simpl. lia.
  - simpl. rewrite IH by exact H. lia.
Qed.

Lemma count_sum_app docs e : count_sum (docs ++ [e]) = count_sum docs + chunk_count (snd e).
Proof. unfold count_sum. rewrite map_app, fold_right_app. simpl. induction docs; simpl; lia. Qed.

Lemma entries_of_update_other k d info docs :
  is_str k d = false -> entries_of d (update_doc k info docs) = entries_of d docs.
Proof.
  unfold entries_of. intros Hk. induction docs as [|[k' i'] docs IH]; simpl.
  - rewrite Hk. reflexivity.
  - destruct (py_eq k k') eqn:Hq; simpl.
    + destruct (is_str k' d) eqn:Hk'; [|reflexivity].
      apply is_str_eq in Hk'. subst k'. apply py_eq_to_str in Hq. subst k.
      simpl in Hk. rewrite String.eqb_refl in Hk. discriminate.
    + destruct (is_str k' d); [f_equal|]; exact IH.
Qed.

Lemma entries_of_update_one d k0 i0 info docs :
  entries_of d docs = [(k0, i0)] ->
  entries_of d (update_doc (VStr d) info docs) = [(k0, info)].
Proof.
  unfold entries_of. induction docs as [|[k' i'] docs IH]; simpl; [discriminate|].
  rewrite py_eq_str. destruct (is_str k' d) eqn:Hk'; simpl; rewrite ?Hk'.
  - intros H. injection H as -> -> Hr. rewrite Hr. reflexivity.
  - exact IH.
Qed.

Lemma entries_of_app d docs e :
  entries_of d (docs ++ [e]) = entries_of d docs ++ (if is_str (fst e) d then [e] else []).
Proof. unfold entries_of. rewrite List.filter_app. simpl. destruct (is_str (fst e) d); reflexivity. Qed.

Lemma get_set_doc info v :
  get (set info "chunk_count" v) "document_id" = get info "document_id".
Proof. apply get_set_ne. discriminate. Qed.

Lemma chunk_count_set info n : chunk_count (set info "chunk_count" (VInt n)) = n.
Proof. unfold chunk_count. rewrite get_set_eq. reflexivity. Qed.

Lemma list_step_spec docs meta k :
  docs_inv docs -> get meta "document_id" = Some k ->
  exists docs', list_step docs meta = Some docs' /\ docs_inv docs' /\
    count_sum docs' = count_sum docs + 1 /\
    forall d n, doc_rel d docs n -> doc_rel d docs' (n + if is_str k d then 1 else 0).
Proof.
  intros Hinv Hk. unfold list_step. rewrite Hk.
  destruct (lookup_doc k docs) as [info0|] eqn:Hl.
  - rewrite Hl.
    destruct (lookup_doc_in k docs info0 Hl) as [k' Hin].
    pose proof (proj1 (List.Forall_forall _ _) Hinv _ Hin) as [_ [n0 Hn0]]. simpl in Hn0.
    rewrite Hn0. eexists. split; [reflexivity|].
    split; [apply (docs_inv_update k info0); [exact Hinv|exact Hl|apply get_set_doc|];
            exists (n0 + 1); apply get_set_eq|].
    split; [rewrite (count_sum_update k info0) by exact Hl; rewrite chunk_count_set;
            unfold chunk_count; rewrite Hn0; lia|].
    intros d n Hr. destruct (is_str k d) eqn:Hkd.
    + apply is_str_eq in Hkd. subst k.
      rewrite lookup_doc_str in Hl.
      destruct Hr as [[-> He]|[Hpos (k1 & i1 & He & Hc)]]; rewrite He in Hl; [discriminate|].
      simpl in Hl. injection Hl as ->.
      right. split; [lia|]. exists k1, (set info0 "chunk_count" (VInt (n0 + 1))).
      split; [apply entries_of_update_one with (i0 := info0); exact He|].
      rewrite chunk_count_set. unfold chunk_count in Hc. rewrite Hn0 in Hc. lia.
    + rewrite Z.add_0_r. unfold doc_rel. rewrite entries_of_update_other by exact Hkd. exact Hr.
  - set (new := new_doc_info k meta).
    rewrite (update_doc_absent k new docs Hl), (lookup_doc_appended k new docs Hl).
    assert (Hc0 : get new "chunk_count" = Some (VInt 0)) by reflexivity.
    assert (Hd0 : get new "document_id" = Some k) by reflexivity.
    clearbody new.
    rewrite Hc0. eexists. split; [reflexivity|].
    rewrite Z.add_0_l.
    assert (Hl1 : lookup_doc k (docs ++ [(k, new)]) = Some new)
      by (apply lookup_doc_appended; exact Hl).
    assert (Hupd : update_doc k (set new "chunk_count" (VInt 1)) (docs ++ [(k, new)]) =
                   docs ++ [(k, set new "chunk_count" (VInt 1))]).
    { apply update_doc_appended. exact Hl. }
    rewrite Hupd. split.
    + apply Forall_app. split; [exact Hinv|]. constructor; [|constructor]. cbn [fst snd].
      split; [rewrite get_set_doc; exact Hd0|]. exists 1. apply get_set_eq.
    + split; [rewrite count_sum_app; simpl; rewrite chunk_count_set; reflexivity|].
      intros d n Hr. unfold doc_rel. rewrite entries_of_app. simpl.
      destruct (is_str k d) eqn:Hkd.
      * apply is_str_eq in Hkd. subst k. rewrite lookup_doc_str in Hl.
        destruct Hr as [[-> He]|[Hpos (k1 & i1 & He & Hc)]]; rewrite He in *; [|discriminate].
        right. split; [lia|]. exists (VStr d), (set new "chunk_count" (VInt 1)).
        split; [reflexivity|]. apply chunk_count_set.
      * rewrite app_nil_r, Z.add_0_r. exact Hr.
Qed.

Lemma list_go_spec ms docs :
  Forall has_document_id ms -> docs_inv docs ->
  exists docs', list_go docs ms = Some docs' /\ docs_inv docs' /\
    count_sum docs' = count_sum docs + Z.of_nat (length ms) /\
    forall d n, doc_rel d docs n ->
      doc_rel d docs' (n + Z.of_nat (length (List.filter (of_document d) ms))).
Proof.
  intros Hms. revert docs. induction Hms as [|m ms Hm _ IH]; intros docs Hinv.
  - exists docs. split; [reflexivity|]. split; [exact Hinv|].
    split; [simpl; lia|]. intros d n Hr. simpl. rewrite Z.add_0_r. exact Hr.
  - unfold has_document_id in Hm.
    destruct (get m "document_id") as [k|] eqn:Hk; [|contradiction].
    destruct (list_step_spec docs m k Hinv Hk) as (docs1 & Hs & Hinv1 & Hsum1 & Hr1).
    destruct (IH docs1 Hinv1) as (docs2 & Hg & Hinv2 & Hsum2 & Hr2).
    exists docs2. simpl. rewrite Hs. split; [exact Hg|]. split; [exact Hinv2|].
    split; [rewrite Hsum2, Hsum1; lia|].
    intros d n Hr. specialize (Hr2 d _ (Hr1 d n Hr)).
    unfold of_document at 1. rewrite Hk.
    destruct (is_str k d); simpl length; [|rewrite Z.add_0_r in Hr2; exact Hr2].
    replace (n + Z.of_nat (S (length (List.filter (of_document d) ms))))
      with (n + 1 + Z.of_nat (length (List.filter (of_document d) ms))) by lia.
    exact Hr2.
Qed.

Lemma filter_listed d docs :
  docs_inv docs ->
  List.filter (of_document d) (map snd docs) = map snd (entries_of d docs).
Proof.
  unfold entries_of. induction 1 as [|[k info] docs [Hd _] _ IH]; simpl; [reflexivity|].
  unfold of_document at 1. simpl in Hd. rewrite Hd.
  destruct (is_str k d); simpl; rewrite IH; reflexivity.
Qed.

End ListingFacts.

Module ListingClaims.
Import Dict Service Invariants Listing ListingInvariants ListingFacts ClaimSupport.

(** When every record has a ["document_id"], [list_documents] succeeds
    and lists each document once: a document without records is not
    listed, a document with [n > 0] records is listed once with
    ["chunk_count"] [n], and the chunk counts add up to the number of
    records. *)
Lemma list_documents_counts st :
  Forall has_document_id (_metadata st) ->
  exists docs, list_documents st = Some docs /\
    fold_right Z.add 0 (map chunk_count docs) = Z.of_nat (length (_metadata st)) /\
    forall d,
      let n := length (List.filter (of_document d) (_metadata st)) in
      (n = 0%nat -> List.filter (of_document d) docs = []) /\
      ((0 < n)%nat -> exists info, List.filter (of_document d) docs = [info] /\
                                    chunk_count info = Z.of_nat n).
Proof.
  intros Hall.
  assert (Hinv0 : docs_inv []) by constructor.
  destruct (list_go_spec (_metadata st) [] Hall Hinv0) as (docs & Hg & Hinv & Hsum & Hr).
  exists (map snd docs). unfold list_documents. rewrite Hg. split; [reflexivity|].
  split.
  - rewrite map_map. unfold count_sum in Hsum. simpl in Hsum. exact Hsum.
  - intros d. cbv zeta. set (n := length (List.filter (of_document d) (_metadata st))).
    rewrite filter_listed by exact Hinv.
    assert (Hr0 : doc_rel d [] 0) by (left; split; reflexivity).
    specialize (Hr d 0 Hr0). rewrite Z.add_0_l in Hr. fold n in Hr.
    destruct Hr as [[Hn He]|[Hpos (k & info & He & Hc)]]; rewrite He.
    + split; [reflexivity|]. intros Hlt. lia.
    + split; [intros Hz; lia|]. intros _. exists info. split; [reflexivity|exact Hc].
Qed.

Lemma list_documents_counts_witness :
  Forall has_document_id (_metadata Inputs.store_two) /\
  exists docs, list_documents Inputs.store_two = Some docs /\
    fold_right Z.add 0 (map chunk_count docs) = Z.of_nat (length (_metadata Inputs.store_two)) /\
    forall d,
      let n := length (List.filter (of_document d) (_metadata Inputs.store_two)) in
      (n = 0%nat -> List.filter (of_document d) docs = []) /\
      ((0 < n)%nat -> exists info, List.filter (of_document d) docs = [info] /\
                                    chunk_count info = Z.of_nat n).
Proof.
  assert (H : Forall has_document_id (_metadata Inputs.store_two))
    by apply store_two_wf.
  split; [exact H|]. exact (list_documents_counts Inputs.store_two H).
Defined.

End ListingClaims.

Module IndexRoundTrip.
Import Dict Service Invariants Listing DictFacts IndexFacts ExtraFacts ExtraDefs.

Lemma new_records_cons d md g tc i p pairs :
  new_records d md g tc i (p :: pairs) =
  make_record d i (fst p) (Grounding._find_grounding_for_chunk (fst p) g tc) md ::
  new_records d md g tc (S i) pairs.
Proof.
  unfold new_records. rewrite imap_cons. rewrite Nat.add_0_r. f_equal.
  apply imap_ext. intros j x _. simpl. rewrite Nat.add_succ_r. reflexivity.
Qed.

Lemma index_loop_ret_meta st d md g tc i pairs st' u :
  index_loop st d md g tc i pairs = Ret st' u ->
  _metadata st' = _metadata st ++ new_records d md g tc i pairs.
Proof.
  revert st i. induction pairs as [|[ch e] pairs IH]; intros st i; simpl.
  - intros H. injection H as <- _. rewrite app_nil_r. reflexivity.
  - destruct (Faiss.add (_index st) [normalize e]) as [ix'|]; [|discriminate].
    intros H. apply IH in H. rewrite H. simpl.
    rewrite new_records_cons, <- app_assoc. reflexivity.
Qed.

Lemma index_loop_total st d md g tc i pairs :
  Faiss.ix_d (_index st) = dimension ->
  Forall (fun p => Faiss.has_dim dimension (snd p) = true) pairs ->
  exists st', index_loop st d md g tc i pairs = Ret st' tt.
Proof.
  intros Hd Hp. revert st i Hd. induction Hp as [|[ch e] pairs He _ IH]; intros st i Hd;
    cbn [index_loop].
  - eexists. reflexivity.
  - unfold Faiss.add. rewrite Hd. unfold normalize. cbn [forallb]. simpl in He. rewrite He.
    cbn [andb]. apply IH. reflexivity.
Qed.

Lemma forall_zip_snd {A B} (P : B -> Prop) (a : list A) (b : list B) :
  Forall P b -> Forall (fun p => P (snd p)) (zip a b).
Proof.
  intros Hb. revert a. induction Hb as [|y b Hy _ IH]; intros [|x a]; simpl; constructor; auto.
Qed.







End IndexRoundTrip.

Module IndexClaims.
Import Dict Service Invariants Listing ClaimSupport IndexFacts ExtraFacts IndexRoundTrip ExtraDefs.



(** On a well-formed store, with embeddings of the right width,
    [index_document] returns the number of chunks of the text even when
    the embedding service returned fewer embeddings than chunks: only
    [min(len(chunks), len(embeddings))] records are added. *)
Lemma index_document_count_vs_records fuel st d c md g es chunks :
  wf st -> Forall (fun e => Faiss.has_dim dimension e = true) es ->
  Chunker._chunk_text fuel (chunk_cfg st) c = Some chunks ->
  exists st', index_document fuel st d c md g (Some es) = Some (Ret st' (Z.of_nat (length chunks))) /\
    wf st' /\
    length (_metadata st') = (length (_metadata st) + Nat.min (length chunks) (length es))%nat.
Proof.
  intros Hwf Hes Hc.
  pose proof Hwf as (Hd & _).
  destruct (index_loop_total st d md g (Py.len c) 0 (zip chunks es) Hd
              (forall_zip_snd (fun e => Faiss.has_dim dimension e = true) chunks es Hes))
    as [st' Hl].
  assert (Hi : index_document fuel st d c md g (Some es) = Some (Ret st' (Z.of_nat (length chunks))))
    by (unfold index_document; rewrite Hc, Hl; reflexivity).
  exists st'. split; [exact Hi|].
  split; [exact (proj1 (index_document_spec _ _ _ _ _ _ _ _ Hwf Hi))|].
  rewrite (index_loop_ret_meta _ _ _ _ _ _ _ _ _ Hl), length_app.
  unfold new_records. rewrite length_imap, length_zip. reflexivity.
Qed.

Lemma index_document_count_vs_records_witness :
  (wf (fresh Chunker.default_config) /\
   Forall (fun e => Faiss.has_dim dimension e = true) ([] : list Faiss.vec) /\
   Chunker._chunk_text 1 (chunk_cfg (fresh Chunker.default_config)) "hello" =
     Some [{| Chunker.c_text := "hello"; Chunker.start_idx := 0; Chunker.end_idx := 5 |}]) /\
  exists st', index_document 1 (fresh Chunker.default_config) Inputs.paper_id "hello" None None
                (Some []) = Some (Ret st' 1) /\
    wf st' /\ length (_metadata st') = 0%nat.
Proof.
  assert (H1 := fresh_wf Chunker.default_config).
  assert (H2 : Forall (fun e => Faiss.has_dim dimension e = true) ([] : list Faiss.vec))
    by constructor.
  assert (H3 : Chunker._chunk_text 1 (chunk_cfg (fresh Chunker.default_config)) "hello" =
     Some [{| Chunker.c_text := "hello"; Chunker.start_idx := 0; Chunker.end_idx := 5 |}])
    by reflexivity.
  split; [split; [exact H1|split; assumption]|].
  exact (index_document_count_vs_records 1 (fresh Chunker.default_config) Inputs.paper_id
           "hello" None None [] _ H1 H2 H3).
Defined.

End IndexClaims.

Module GroundingFacts.
Import Dict Grounding.

Lemma max_list_ge p ps : p <= max_list p ps /\ Forall (fun q => q <= max_list p ps) ps.
Proof.
  revert p. induction ps as [|q ps IH]; intros p; simpl; [split; [lia|constructor]|].
  destruct (IH (Z.max p q)) as [H1 H2]. split; [lia|]. constructor; [lia|exact H2].
Qed.

Lemma max_list_in p ps : In (max_list p ps) (p :: ps).
Proof.
  revert p. induction ps as [|q ps IH]; intros p; simpl; [left; reflexivity|].
  destruct (IH (Z.max p q)) as [H|H]; [|right; right; exact H].
  destruct (Z.max_spec p q) as [[_ Hm]|[_ Hm]]; [right; left|left]; lia.
Qed.

(** The page of the main branch of the estimator. *)
Lemma estimate_bounds x tp tc :
  0 <= x -> 1 <= tp -> 0 < tc ->
  1 <= Z.min (Z.quot (x * tp) (2 * tc) + 1) tp <= tp.
Proof.
  intros Hx Htp Htc. rewrite Z.quot_div_nonneg by nia.
  pose proof (Z.div_pos (x * tp) (2 * tc) ltac:(nia) ltac:(lia)). lia.
Qed.

Lemma estimate_mono x y tp tc :
  0 <= x <= y -> 1 <= tp -> 0 < tc ->
  Z.min (Z.quot (x * tp) (2 * tc) + 1) tp <= Z.min (Z.quot (y * tp) (2 * tc) + 1) tp.
Proof.
  intros Hxy Htp Htc. rewrite !Z.quot_div_nonneg by nia.
  pose proof (Z.div_le_mono (x * tp) (y * tp) (2 * tc) ltac:(lia) ltac:(nia)). lia.
Qed.

(** The shape of the estimator's answer. *)
Lemma find_grounding_cases g tc :
  Forall (fun p => 1 <= p) (omap snd (default [] g)) ->
  (forall ch, _find_grounding_for_chunk ch g tc = [("page", VInt 1)]) \/
  exists p ps, omap snd (default [] g) = p :: ps /\ 1 <= max_list p ps /\ 0 < tc /\
    forall ch, _find_grounding_for_chunk ch g tc =
      [("page", VInt (Z.min (Z.quot ((Chunker.start_idx ch + Chunker.end_idx ch) *
                                     max_list p ps) (2 * tc) + 1) (max_list p ps)))].
Proof.
  intros Hp. unfold _find_grounding_for_chunk.
  destruct g as [[|e g]|]; [left; reflexivity| |left; reflexivity].
  simpl default in Hp. destruct (omap snd (e :: g)) as [|p ps] eqn:Ho; [left; reflexivity|].
  destruct (max_list p ps =? 1) eqn:E1; [left; reflexivity|].
  destruct (0 <? tc) eqn:E2; [|left; reflexivity].
  right. exists p, ps. split; [exact Ho|].
  inversion Hp as [|? ? Hp1 _]; subst.
  split; [pose proof (max_list_ge p ps); lia|]. split; [apply Z.ltb_lt; exact E2|].
  reflexivity.
Qed.

End GroundingFacts.

Module ChunkBounds.
Import Py Chunker.

Lemma norm_index_nonneg i n : 0 <= n -> 0 <= norm_index i n.
Proof. unfold norm_index. destruct (Z.ltb_spec i 0); lia. Qed.

Lemma norm_index_id i n : 0 <= i <= n -> norm_index i n = i.
Proof. unfold norm_index. destruct (Z.ltb_spec i 0); lia. Qed.

Lemma rfind_go_bound s sub a k : rfind_go s sub a k = -1 \/ (a <= rfind_go s sub a k <= a + Z.of_nat k).
Proof.
  induction k as [|k IH]; cbn [rfind_go].
  - destruct (occurs_at s sub (a + Z.of_nat 0)); [right; lia|left; reflexivity].
  - destruct (occurs_at s sub (a + Z.of_nat (S k))); [right; lia|].
    destruct IH as [H|H]; [left; exact H|right; lia].
Qed.

Lemma rfind_bound s sub a b :
  rfind s sub a b = -1 \/
  (0 <= rfind s sub a b /\ rfind s sub a b + len sub <= norm_index b (len s)).
Proof.
  unfold rfind.
  assert (Hn : 0 <= len s) by (unfold len; lia).
  pose proof (norm_index_nonneg a (len s) Hn).
  destruct (Z.ltb_spec (norm_index b (len s) - norm_index a (len s) - len sub) 0);
    [left; reflexivity|].
  destruct (rfind_go_bound s sub (norm_index a (len s))
              (Z.to_nat (norm_index b (len s) - norm_index a (len s) - len sub))) as [H1|H1];
    [left; exact H1|right; lia].
Qed.

Lemma snap_bound text s e ss :
  0 <= e <= len text -> Forall (fun sep => len sep = 2) ss ->
  snap text s e ss = e \/
  (s < snap text s e ss - 2 /\ (snap text s e ss = 1 \/ 2 <= snap text s e ss <= e)).
Proof.
  intros He. induction 1 as [|sep ss Hsep _ IH]; simpl; [left; reflexivity|].
  destruct (Z.ltb_spec s (rfind text sep s e)) as [Hlt|_]; [|exact IH].
  right. rewrite Hsep. destruct (rfind_bound text sep s e) as [Hr|Hr].
  - rewrite Hr in *. split; [lia|left; lia].
  - rewrite norm_index_id in Hr by lia. split; [lia|right; lia].
Qed.

Lemma seps_len : Forall (fun sep => len sep = 2) seps.
Proof. repeat constructor. Qed.

Lemma window_end_bounds cfg text s :
  1 <= s + chunk_size cfg ->
  0 <= window_end cfg text s <= len text /\ window_end cfg text s <= s + chunk_size cfg.
Proof.
  intros Hs. unfold window_end.
  assert (Hn : 0 <= len text) by (unfold len; lia).
  destruct (Z.ltb_spec (Z.min (s + chunk_size cfg) (len text)) (len text)); [|lia].
  destruct (snap_bound text s (Z.min (s + chunk_size cfg) (len text)) seps
              ltac:(lia) seps_len) as [H1|[H1 [H2|H2]]]; rewrite ?H1, ?H2; lia.
Qed.

Lemma window_loop_bounds fuel cfg text s ws :
  chunk_overlap cfg < chunk_size cfg -> 1 <= s + chunk_size cfg ->
  window_loop fuel cfg text s = Some ws ->
  Forall (fun w => end_idx w <= len text /\ end_idx w - start_idx w <= chunk_size cfg /\
                   c_text w = strip (slice text (start_idx w) (end_idx w))) ws.
Proof.
  intros Hov. revert s ws. induction fuel as [|fuel IH]; intros s ws Hs; simpl.
  - destruct (s <? len text); [discriminate|]. intros H. injection H as <-. constructor.
  - destruct (Z.ltb_spec s (len text)) as [Hlt|_]; [|intros H; injection H as <-; constructor].
    destruct (window_end_bounds cfg text s Hs) as [He1 He2].
    destruct (window_loop fuel cfg text (next_start cfg text (window_end cfg text s)))
      as [ws'|] eqn:Hw; [|discriminate].
    intros H. injection H as <-. constructor; [simpl; split; [lia|split; [lia|reflexivity]]|].
    apply (IH _ _ ) in Hw; [exact Hw|].
    unfold next_start. destruct (Z.ltb_spec (window_end cfg text s) (len text)); lia.
Qed.

Lemma forall_emitted (P : chunk -> Prop) ws :
  Forall P ws -> Forall (fun w => P w /\ truthy (c_text w) = true) (emitted ws).
Proof.
  unfold emitted. induction 1 as [|w ws Hw _ IH]; [constructor|].
  rewrite filter_cons. destruct (decide (truthy (c_text w) = true)); [|exact IH].
  constructor; [split; assumption|exact IH].
Qed.

End ChunkBounds.

Module StripFacts.
Import Py ExtraDefs.

Lemma lstrip_head l : head_not_space (lstrip_chars l).
Proof.
  induction l as [|c l IH]; simpl; [exact I|].
  destruct (is_space c) eqn:E; [exact IH|exact E].
Qed.

Lemma lstrip_id l : head_not_space l -> lstrip_chars l = l.
Proof. destruct l as [|c l]; simpl; [reflexivity|]. intros H. rewrite H. reflexivity. Qed.

Lemma lstrip_suffix l : exists p, l = p ++ lstrip_chars l.
Proof.
  induction l as [|c l IH]; simpl; [exists []; reflexivity|].
  destruct (is_space c); [|exists []; reflexivity].
  destruct IH as [p Hp]. exists (c :: p). simpl. f_equal. exact Hp.
Qed.

Lemma strip_chars s :
  exists Y, list_ascii_of_string (strip s) = rev Y /\ head_not_space Y /\
            head_not_space (rev Y).
Proof.
  set (X := lstrip_chars (list_ascii_of_string s)).
  set (Y := lstrip_chars (rev X)).
  exists Y. unfold strip. fold X Y. rewrite list_ascii_of_string_of_list_ascii.
  split; [reflexivity|]. split; [apply lstrip_head|].
  destruct (lstrip_suffix (rev X)) as [p Hp]. fold Y in Hp.
  assert (HX : X = rev Y ++ rev p).
  { rewrite <- (rev_involutive X), Hp, rev_app_distr. reflexivity. }
  pose proof (lstrip_head (list_ascii_of_string s)) as Hh. fold X in Hh.
  destruct (rev Y) as [|c r]; [exact I|]. rewrite HX in Hh. exact Hh.
Qed.

Lemma strip_idem s : strip (strip s) = strip s.
Proof.
  destruct (strip_chars s) as (Y & HY & H1 & H2).
  unfold strip at 1. rewrite HY, (lstrip_id (rev Y) H2), rev_involutive, (lstrip_id Y H1).
  rewrite <- HY. apply string_of_list_ascii_of_string.
Qed.

End StripFacts.

Module BatchFacts.
Import Embedding.

Lemma concat_batches (l : list string) j0 m :
  concat (map (fun j => batch l (j * BATCH_SIZE)) (seq j0 m)) =
  take (BATCH_SIZE * m) (drop (j0 * BATCH_SIZE) l).
Proof.
  unfold batch, BATCH_SIZE. revert j0. induction m as [|m IH]; intros j0; [reflexivity|].
  rewrite <- cons_seq. simpl map. simpl concat. rewrite IH.
  replace (S j0 * 5)%nat with (j0 * 5 + 5)%nat by lia.
  rewrite <- drop_drop, take_take_drop. f_equal. lia.
Qed.

Lemma batch_count_ge n : (n <= BATCH_SIZE * ((n + BATCH_SIZE - 1) / BATCH_SIZE))%nat.
Proof.
  unfold BATCH_SIZE. pose proof (Nat.div_mod_eq (n + 5 - 1) 5).
  pose proof (Nat.mod_upper_bound (n + 5 - 1) 5 ltac:(lia)). lia.
Qed.

Lemma batch_count_le n : (BATCH_SIZE * ((n + BATCH_SIZE - 1) / BATCH_SIZE) <= n + BATCH_SIZE - 1)%nat.
Proof.
  unfold BATCH_SIZE. pose proof (Nat.div_mod_eq (n + 5 - 1) 5). lia.
Qed.

Lemma batches_concat (texts : list string) :
  concat (map (batch texts) (batch_starts (length texts))) = texts.
Proof.
  unfold batch_starts. rewrite map_map. rewrite concat_batches. simpl drop.
  apply take_ge. apply batch_count_ge.
Qed.

Lemma batches_sizes (texts : list string) :
  Forall (fun b => (1 <= length b <= BATCH_SIZE)%nat)
    (map (batch texts) (batch_starts (length texts))).
Proof.
  unfold batch_starts. rewrite map_map. apply Forall_forall.
  intros b Hb. apply list_elem_of_In, in_map_iff in Hb as (j & <- & Hj).
  apply in_seq in Hj. pose proof (batch_count_le (length texts)).
  unfold batch. rewrite length_take, length_drop. unfold BATCH_SIZE in *. nia.
Qed.

Lemma embed_batches_app post f texts starts acc :
  (forall b, post b = Some (map f b)) ->
  embed_batches post texts starts acc =
  Some (acc ++ map f (concat (map (batch texts) starts))).
Proof.
  intros Hp. revert acc. induction starts as [|i starts IH]; intros acc; simpl.
  - rewrite app_nil_r. reflexivity.
  - rewrite Hp, IH, map_app, app_assoc. reflexivity.
Qed.

End BatchFacts.

Module MoreClaims.
Import Dict Grounding GroundingFacts ChunkBounds StripFacts BatchFacts ChunkerFacts MoreInputs.

(** When the chunk offsets add up to a non-negative number and every
    page of the grounding map is at least 1, the estimated page is at
    least 1 and at most the largest page of the map. *)
Lemma grounding_page_in_range ch g tc :
  0 <= Chunker.start_idx ch + Chunker.end_idx ch ->
  Forall (fun p => 1 <= p) (omap snd (default [] g)) ->
  exists p, _find_grounding_for_chunk ch g tc = [("page", VInt p)] /\ 1 <= p /\
    (p = 1 \/ Exists (fun q => p <= q) (omap snd (default [] g))).
Proof.
  intros Hx Hp. destruct (find_grounding_cases g tc Hp) as [H|(p & ps & Ho & Htp & Htc & H)].
  - exists 1. split; [apply H|]. split; [lia|left; reflexivity].
  - eexists. split; [apply H|].
    pose proof (estimate_bounds _ _ _ Hx Htp Htc) as Hb. split; [lia|].
    right. rewrite Ho. apply List.Exists_exists. exists (max_list p ps).
    split; [apply max_list_in|lia].
Qed.

Lemma grounding_page_in_range_witness :
  (0 <= Chunker.start_idx {| Chunker.c_text := "x"; Chunker.start_idx := 400;
                             Chunker.end_idx := 900 |} +
        Chunker.end_idx {| Chunker.c_text := "x"; Chunker.start_idx := 400;
                           Chunker.end_idx := 900 |} /\
   Forall (fun p => 1 <= p) (omap snd (default [] (Some [("e1", Some 1); ("e2", None); ("e3", Some 3)])))) /\
  exists p, _find_grounding_for_chunk
              {| Chunker.c_text := "x"; Chunker.start_idx := 400; Chunker.end_idx := 900 |}
              (Some [("e1", Some 1); ("e2", None); ("e3", Some 3)]) 1000 = [("page", VInt p)] /\
    1 <= p /\
    (p = 1 \/ Exists (fun q => p <= q)
                (omap snd (default [] (Some [("e1", Some 1); ("e2", None); ("e3", Some 3)])))).
Proof.
  assert (H1 : 0 <= Chunker.start_idx {| Chunker.c_text := "x"; Chunker.start_idx := 400;
                                         Chunker.end_idx := 900 |} +
                    Chunker.end_idx {| Chunker.c_text := "x"; Chunker.start_idx := 400;
                                       Chunker.end_idx := 900 |}) by (simpl; lia).
  assert (H2 : Forall (fun p => 1 <= p)
                 (omap snd (default [] (Some [("e1", Some 1); ("e2", None); ("e3", Some 3)]))))
    by (simpl; repeat constructor; lia).
  split; [split; assumption|].
  exact (grounding_page_in_range _ _ 1000 H1 H2).
Defined.

(** The estimated page never decreases as a chunk moves forward in the
    document: for two chunks with [0 <= start1 + end1 <= start2 + end2]
    and pages of at least 1, the first chunk's page is at most the
    second's. *)
Lemma grounding_page_monotone c1 c2 g tc p1 p2 :
  0 <= Chunker.start_idx c1 + Chunker.end_idx c1 <= Chunker.start_idx c2 + Chunker.end_idx c2 ->
  Forall (fun p => 1 <= p) (omap snd (default [] g)) ->
  _find_grounding_for_chunk c1 g tc = [("page", VInt p1)] ->
  _find_grounding_for_chunk c2 g tc = [("page", VInt p2)] ->
  p1 <= p2.
Proof.
  intros Hx Hp H1 H2.
  destruct (find_grounding_cases g tc Hp) as [E|(p & ps & Ho & Htp & Htc & E)];
    rewrite E in H1, H2; injection H1 as <-; injection H2 as <-; [lia|].
  apply estimate_mono; [lia|exact Htp|exact Htc].
Qed.

Lemma grounding_page_monotone_witness :
  (0 <= Chunker.start_idx early_chunk + Chunker.end_idx early_chunk <=
        Chunker.start_idx late_chunk + Chunker.end_idx late_chunk /\
   Forall (fun p => 1 <= p) (omap snd (default [] (Some three_pages))) /\
   _find_grounding_for_chunk early_chunk (Some three_pages) 1000 = [("page", VInt 1)] /\
   _find_grounding_for_chunk late_chunk (Some three_pages) 1000 = [("page", VInt 2)]) /\
  1 <= 2.
Proof.
  assert (H1 : 0 <= Chunker.start_idx early_chunk + Chunker.end_idx early_chunk <=
               Chunker.start_idx late_chunk + Chunker.end_idx late_chunk) by (simpl; lia).
  assert (H2 : Forall (fun p => 1 <= p) (omap snd (default [] (Some three_pages))))
    by (simpl; repeat constructor; lia).
  assert (H3 : _find_grounding_for_chunk early_chunk (Some three_pages) 1000 = [("page", VInt 1)])
    by reflexivity.
  assert (H4 : _find_grounding_for_chunk late_chunk (Some three_pages) 1000 = [("page", VInt 2)])
    by reflexivity.
  split; [exact (conj H1 (conj H2 (conj H3 H4)))|].
  exact (grounding_page_monotone early_chunk late_chunk (Some three_pages) 1000 1 2 H1 H2 H3 H4).
Defined.

(** With [0 < chunk_size] and [chunk_overlap < chunk_size], every chunk
    that [_chunk_text] returns ends within the text, spans at most
    [chunk_size] characters, holds the stripped text of its window, and
    is not empty. *)
Lemma chunk_text_bounds fuel cfg text cs :
  0 < Chunker.chunk_size cfg -> Chunker.chunk_overlap cfg < Chunker.chunk_size cfg ->
  Chunker._chunk_text fuel cfg text = Some cs ->
  Forall (fun c => Chunker.end_idx c <= Py.len text /\
                   Chunker.end_idx c - Chunker.start_idx c <= Chunker.chunk_size cfg /\
                   Chunker.c_text c = Py.strip (Py.slice text (Chunker.start_idx c) (Chunker.end_idx c)) /\
                   Chunker.c_text c <> EmptyString) cs.
Proof.
  intros Hsz Hov Hc. unfold Chunker._chunk_text in Hc.
  destruct (chunk_loop_windows _ _ _ _ _ _ Hc) as (ws & Hw & ->).
  pose proof (window_loop_bounds fuel cfg text 0 ws Hov ltac:(lia) Hw) as Hb.
  apply forall_emitted in Hb. simpl.
  eapply Forall_impl; [exact Hb|]. intros w [(H1 & H2 & H3) H4].
  split; [exact H1|]. split; [exact H2|]. split; [exact H3|].
  intros He. rewrite He in H4. discriminate.
Qed.

Lemma chunk_text_bounds_witness :
  (0 < Chunker.chunk_size Chunker.default_config /\
   Chunker.chunk_overlap Chunker.default_config < Chunker.chunk_size Chunker.default_config /\
   Chunker._chunk_text 5 Chunker.default_config Inputs.blank_gap_text =
     Chunker._chunk_text 5 Chunker.default_config Inputs.blank_gap_text) /\
  match Chunker._chunk_text 5 Chunker.default_config Inputs.blank_gap_text with
  | Some cs =>
      Forall (fun c => Chunker.end_idx c <= Py.len Inputs.blank_gap_text /\
                       Chunker.end_idx c - Chunker.start_idx c <=
                         Chunker.chunk_size Chunker.default_config /\
                       Chunker.c_text c = Py.strip (Py.slice Inputs.blank_gap_text
                                                     (Chunker.start_idx c) (Chunker.end_idx c)) /\
                       Chunker.c_text c <> EmptyString) cs
  | None => False
  end.
Proof.
  assert (H1 : 0 < Chunker.chunk_size Chunker.default_config) by (simpl; lia).
  assert (H2 : Chunker.chunk_overlap Chunker.default_config <
               Chunker.chunk_size Chunker.default_config) by (simpl; lia).
  split; [split; [exact H1|split; [exact H2|reflexivity]]|].
  destruct (Chunker._chunk_text 5 Chunker.default_config Inputs.blank_gap_text) as [cs|] eqn:E.
  - exact (chunk_text_bounds 5 Chunker.default_config Inputs.blank_gap_text cs H1 H2 E).
  - vm_compute in E. discriminate.
Defined.

(** A query accepted by [validate_query] is its own stripped form, has
    3 to 500 characters, and is accepted unchanged when validated again. *)
Lemma validate_query_stable q v :
  Requests.validate_query q = Some v ->
  v = Py.strip q /\ 3 <= Py.len v <= 500 /\ Requests.validate_query v = Some v.
Proof.
  unfold Requests.validate_query.
  destruct (negb (Py.truthy (Py.strip q))) eqn:E1; [discriminate|].
  destruct ((Py.len (Py.strip q) <? 3) || (500 <? Py.len (Py.strip q))) eqn:E2; [discriminate|].
  intros H. injection H as <-. split; [reflexivity|].
  split; [apply Bool.orb_false_iff in E2 as [E2 E3]; apply Z.ltb_ge in E2, E3; lia|].
  rewrite strip_idem, E1, E2. reflexivity.
Qed.

Lemma validate_query_stable_witness :
  Requests.validate_query "  transformers  " = Some "transformers" /\
  "transformers" = Py.strip "  transformers  " /\ 3 <= Py.len "transformers" <= 500 /\
  Requests.validate_query "transformers" = Some "transformers".
Proof.
  assert (H : Requests.validate_query "  transformers  " = Some "transformers") by reflexivity.
  split; [exact H|]. exact (validate_query_stable _ _ H).
Defined.

(** [embed_documents] splits the texts into consecutive batches of 1 to
    [BATCH_SIZE] texts whose concatenation is the whole input, in order. *)
Lemma embed_batches_partition (texts : list string) :
  concat (map (Embedding.batch texts) (Embedding.batch_starts (length texts))) = texts /\
  Forall (fun b => (1 <= length b <= Embedding.BATCH_SIZE)%nat)
    (map (Embedding.batch texts) (Embedding.batch_starts (length texts))).
Proof. split; [apply batches_concat|apply batches_sizes]. Qed.

(** When each request returns one embedding per text of its batch,
    [embed_documents] returns exactly one embedding per input text, in
    input order. *)
Lemma embed_documents_per_text post (f : string -> Faiss.vec) texts :
  (forall b, post b = Some (map f b)) ->
  Embedding.embed_documents post texts = Some (map f texts).
Proof.
  intros Hp. unfold Embedding.embed_documents.
  destruct texts as [|t texts']; [reflexivity|].
  rewrite (embed_batches_app post f), batches_concat by exact Hp. reflexivity.
Qed.

Lemma embed_documents_per_text_witness :
  (forall b, (fun b => Some (map (fun s => [Z.of_nat (String.length s)]) b)) b =
             Some (map (fun s => [Z.of_nat (String.length s)]) b)) /\
  Embedding.embed_documents (fun b => Some (map (fun s => [Z.of_nat (String.length s)]) b))
    seven_texts = Some (map (fun s => [Z.of_nat (String.length s)]) seven_texts).
Proof.
  assert (H : forall b, (fun b => Some (map (fun s => [Z.of_nat (String.length s)]) b)) b =
                        Some (map (fun s => [Z.of_nat (String.length s)]) b))
    by (intros b; reflexivity).
  split; [exact H|]. exact (embed_documents_per_text _ _ seven_texts H).
Defined.

End MoreClaims.

Module SearchPositions.
Import Dict Service Invariants DictFacts SearchFacts ClaimSupport.

Lemma list_filter_sublist {A} (f : A -> bool) l : List.filter f l `sublist_of` l.
Proof.
  induction l as [|x l IH]; simpl; [constructor|].
  destruct (f x); [apply sublist_skip|apply sublist_cons]; exact IH.
Qed.

Lemma faiss_rows_nodup ix q k rows thr :
  Faiss.search ix q k = Some rows ->
  NoDup ((fun row => Z.to_nat (snd row)) <$> List.filter (kept_row thr) rows).
Proof.
  intros Hs. destruct (faiss_search_shape _ _ _ _ Hs) as (top & -> & _ & _ & Hnd & Hin & _).
  rewrite List.filter_app, filter_pads, app_nil_r.
  eapply sublist_NoDup; [|apply fmap_sublist; apply list_filter_sublist].
  apply NoDup_fmap_2_strong; [|exact Hnd].
  intros x y Hx Hy Hxy. apply list_elem_of_In in Hx, Hy.
  rewrite List.Forall_forall in Hin. apply Hin in Hx, Hy.
  apply scored_in in Hx as (i & v & Hv & ->). apply scored_in in Hy as (j & w & Hw & ->).
  simpl in Hxy. assert (i = j) by lia. subst j. rewrite Hv in Hw. injection Hw as ->.
  reflexivity.
Qed.

Lemma forall2_positions metadata rows rs :
  Forall2 (result_of metadata) rows rs ->
  Forall2 (fun i r => exists m s, metadata !! i = Some m /\ r = set m "score" (VFloat s))
    ((fun row => Z.to_nat (snd row)) <$> rows) rs.
Proof.
  induction 1 as [|row r rows rs (m & Hm & ->) _ IH]; simpl; constructor; [|exact IH].
  exists m, (fst row). split; [exact Hm|reflexivity].
Qed.

End SearchPositions.

Module SearchClaims.
Import Dict Service Invariants SearchFacts ClaimSupport SearchPositions.

(** [search] never returns the same stored record twice: its results
    come from pairwise distinct positions of [_metadata], each result
    being the record at its position with a ["score"] added, and the
    store is left unchanged. *)
Lemma search_distinct_positions st q k thr st' rs :
  search st q k thr = Ret st' rs ->
  st' = st /\
  exists is : list nat, NoDup is /\
    Forall2 (fun i r => exists m s, _metadata st !! i = Some m /\ r = set m "score" (VFloat s))
      is rs.
Proof.
  intros H. split; [exact (search_ret_state _ _ _ _ _ _ H)|].
  revert H. unfold search.
  destruct (Faiss.ntotal (_index st) =? 0)%nat.
  - intros H. injection H as _ <-. exists []. split; constructor.
  - destruct (Faiss.search _ _ _) as [rows|] eqn:Hs; [|discriminate].
    destruct (collect _ _ _) as [rs'|] eqn:Hc; [|discriminate].
    intros H. injection H as _ <-.
    exists ((fun row => Z.to_nat (snd row)) <$> List.filter (kept_row thr) rows).
    split; [exact (faiss_rows_nodup _ _ _ _ thr Hs)|].
    apply forall2_positions. apply collect_sound. exact Hc.
Qed.

Lemma search_distinct_positions_witness :
  match search Inputs.store_two Inputs.unit_vec 2 0 with
  | Ret st' rs =>
      st' = Inputs.store_two /\
      exists is : list nat, NoDup is /\
        Forall2 (fun i r => exists m s, _metadata Inputs.store_two !! i = Some m /\
                                        r = set m "score" (VFloat s)) is rs
  | Raise _ => False
  end.
Proof.
  destruct (search Inputs.store_two Inputs.unit_vec 2 0) as [st' rs|st'] eqn:E.
  - exact (search_distinct_positions Inputs.store_two Inputs.unit_vec 2 0 st' rs E).
  - vm_compute in E. discriminate.
Defined.

End SearchClaims.
